(** * LLM trigger plugin: a shallow embedding of [main.py] and its properties

    The plugin parses trigger strings of the shape
    [platform::target::provider::cron::message], keeps one mutable record per
    accepted string, and runs a polling loop that fires every record whose
    [next_run] has passed.  This file embeds [_parse_configs],
    [_check_and_execute_triggers], [_execute_trigger], [_send_notification]
    and [_scheduler_loop] as functions in a state/trace/exception monad over an
    abstract host (the AstrBot context, the providers, the event loop, the
    clock and the croniter library), and proves the properties of the
    specification against them.

    Layout: part I holds every definition, part II every lemma. *)

From Stdlib Require Import Ascii String ZArith Lia.
From stdpp Require Import base strings list.

Open Scope string_scope.
Open Scope list_scope.

(* ===================================================================== *)
(** * Part I: definitions                                                 *)
(* ===================================================================== *)

(** ** Python string primitives *)

(** Python strings are sequences of code points and Rocq strings sequences
    of bytes.  The separators used by the plugin are ASCII, and UTF-8 never
    reuses an ASCII byte inside a multi-byte sequence, so cutting the UTF-8
    encoding at ["::"] cuts the text at the same places. *)
Module Str.

(** [s.split(sep)] for a non-empty [sep]: scan from the left, cut at every
    occurrence of [sep] that does not overlap the previous one.  [skip]
    counts the characters of a separator, already recognised, that are still
    to be passed over; the head of the result is the segment being read. *)
Fixpoint split_aux (sep : string) (skip : nat) (s : string) : list string :=
  match s with
  | EmptyString => [EmptyString]
  | String c s' =>
      match skip with
      | S k => split_aux sep k s'
      | O =>
          if String.prefix sep s
          then EmptyString :: split_aux sep (String.length sep - 1) s'
          else match split_aux sep 0 s' with
               | seg :: segs => String c seg :: segs
               | [] => [String c EmptyString]
               end
      end
  end.

Definition split (sep s : string) : list string := split_aux sep 0 s.

(** [sep.join(parts)] *)
Fixpoint join (sep : string) (parts : list string) : string :=
  match parts with
  | [] => ""
  | [p] => p
  | p :: rest => p +:+ sep +:+ join sep rest
  end.

End Str.

(** ** The cron evaluator *)

(** Modelled from the spec: the cron evaluator is the third-party croniter
    package, which is not part of the repository; section 4.1 of the
    specification describes it as a component: a 5-field expression (minute,
    hour, day of month, month, day of week) with [*], single values, ranges
    [a-b], steps [*/n] and comma lists, rejected when the field count is wrong
    or a token is malformed or out of range, and a [next] that returns the
    earliest instant strictly after the reference whose minute-granularity
    calendar fields satisfy every field, day of month and day of week being
    combined by OR when both are restricted.

    Instants are seconds on the host's naive local clock, counted from
    1970-01-01T00:00:00; the calendar is the proleptic Gregorian one. *)
Module Cron.

Local Open Scope Z_scope.

Inductive item : Type :=
| Star
| Every (n : Z)
| Single (v : Z)
| Range (a b : Z).

Definition field : Type := list item.

Record expr : Type := {
  minute : field;
  hour : field;
  day_of_month : field;
  month : field;
  day_of_week : field
}.

(** *** Parsing *)

Definition digit (c : ascii) : option Z :=
  let n := Z.of_nat (nat_of_ascii c) in
  if (48 <=? n) && (n <=? 57) then Some (n - 48) else None.

Fixpoint number_aux (acc : Z) (s : string) : option Z :=
  match s with
  | EmptyString => Some acc
  | String c s' =>
      match digit c with
      | Some d => number_aux (10 * acc + d) s'
      | None => None
      end
  end.

Definition number (s : string) : option Z :=
  match s with
  | EmptyString => None
  | _ => number_aux 0 s
  end.

Definition in_range (lo hi v : Z) : bool := (lo <=? v) && (v <=? hi).

Definition parse_item (lo hi : Z) (tok : string) : option item :=
  if String.eqb tok "*" then Some Star
  else
    match Str.split "/" tok with
    | [star; n] =>
        if String.eqb star "*" then
          match number n with
          | Some n' => if 1 <=? n' then Some (Every n') else None
          | None => None
          end
        else None
    | _ =>
        match Str.split "-" tok with
        | [a] =>
            match number a with
            | Some v => if in_range lo hi v then Some (Single v) else None
            | None => None
            end
        | [a; b] =>
            match number a, number b with
            | Some a', Some b' =>
                if in_range lo hi a' && in_range lo hi b' && (a' <=? b')
                then Some (Range a' b') else None
            | _, _ => None
            end
        | _ => None
        end
    end.

Fixpoint parse_items (lo hi : Z) (toks : list string) : option field :=
  match toks with
  | [] => Some []
  | tok :: rest =>
      match parse_item lo hi tok, parse_items lo hi rest with
      | Some it, Some its => Some (it :: its)
      | _, _ => None
      end
  end.

Definition parse_field (lo hi : Z) (s : string) : option field :=
  parse_items lo hi (Str.split "," s).

Definition is_space (c : ascii) : bool :=
  let n := nat_of_ascii c in Nat.eqb n 32 || Nat.eqb n 9.

(** the pieces between white space, empty ones included *)
Fixpoint chunks (s : string) : list string :=
  match s with
  | EmptyString => [EmptyString]
  | String c s' =>
      if is_space c then EmptyString :: chunks s'
      else match chunks s' with
           | seg :: segs => String c seg :: segs
           | [] => [String c EmptyString]
           end
  end.

Definition words (s : string) : list string :=
  List.filter (fun w => negb (String.eqb w "")) (chunks s).

(** Modelled from the spec: construction of a cron expression (croniter's
    constructor is not in the repository).  Five fields separated by white
    space; a field is a comma list of [*], [*/n], [v] or [a-b] within the
    range of the field, minute 0-59, hour 0-23, day of month 1-31, month
    1-12, day of week 0-7 (both 0 and 7 standing for Sunday, as in
    crontab(5)); anything else is rejected. *)
Definition parse (s : string) : option expr :=
  match words s with
  | [mi; ho; dm; mo; dw] =>
      match parse_field 0 59 mi, parse_field 0 23 ho, parse_field 1 31 dm,
            parse_field 1 12 mo, parse_field 0 7 dw with
      | Some mi', Some ho', Some dm', Some mo', Some dw' =>
          Some {| minute := mi'; hour := ho'; day_of_month := dm';
                  month := mo'; day_of_week := dw' |}
      | _, _, _, _, _ => None
      end
  | _ => None
  end.

(** *** Calendar fields of a day number (days since 1970-01-01) *)

Definition days_per_era : Z := 146097.

Definition day_of_era (day : Z) : Z := (day + 719468) mod days_per_era.

Definition year_of_era (doe : Z) : Z :=
  (doe - doe / 1460 + doe / 36524 - doe / 146096) / 365.

(** day of the year that starts on 1 March *)
Definition day_of_year (doe : Z) : Z :=
  let yoe := year_of_era doe in
  doe - (365 * yoe + yoe / 4 - yoe / 100).

(** month counted from March = 0 *)
Definition month_index (doy : Z) : Z := (5 * doy + 2) / 153.

Definition dom_of_day (day : Z) : Z :=
  let doy := day_of_year (day_of_era day) in
  doy - (153 * month_index doy + 2) / 5 + 1.

Definition month_of_day (day : Z) : Z :=
  let mp := month_index (day_of_year (day_of_era day)) in
  if mp <? 10 then mp + 3 else mp - 9.

(** 0 = Sunday; 1970-01-01 was a Thursday *)
Definition dow_of_day (day : Z) : Z := (day + 4) mod 7.

(** *** Matching *)

Definition item_matches (lo v : Z) (it : item) : bool :=
  match it with
  | Star => true
  | Every n => (v - lo) mod n =? 0
  | Single x => v =? x
  | Range a b => (a <=? v) && (v <=? b)
  end.

Definition field_matches (lo : Z) (f : field) (v : Z) : bool :=
  existsb (item_matches lo v) f.

Definition restricted (f : field) : bool :=
  match f with
  | [Star] => false
  | _ => true
  end.

Definition dow_matches (f : field) (v : Z) : bool :=
  field_matches 0 f v || ((v =? 0) && field_matches 0 f 7).

(** Modelled from the spec: the calendar fields of the minute number [k]
    (minutes since the epoch) satisfy every field of the expression, day of
    month and day of week being combined by OR when both are restricted and
    by AND otherwise. *)
Definition matches_minute (e : expr) (k : Z) : bool :=
  let day := k / 1440 in
  let dom_ok := field_matches 1 (day_of_month e) (dom_of_day day) in
  let dow_ok := dow_matches (day_of_week e) (dow_of_day day) in
  field_matches 0 (minute e) (k mod 60)
  && field_matches 0 (hour e) ((k / 60) mod 24)
  && field_matches 1 (month e) (month_of_day day)
  && (if restricted (day_of_month e) && restricted (day_of_week e)
      then dom_ok || dow_ok else dom_ok && dow_ok).

(** an instant satisfies the expression when its minute does *)
Definition matches (e : expr) (t : Z) : bool := matches_minute e (t / 60).

(** *** Next fire time *)

(** the least [k] in [lo, lo + 2^depth) with [p k], if any *)
Fixpoint search (p : Z -> bool) (depth : nat) (lo : Z) : option Z :=
  match depth with
  | O => if p lo then Some lo else None
  | S d =>
      match search p d lo with
      | Some k => Some k
      | None => search p d (lo + 2 ^ Z.of_nat d)
      end
  end.

(** minutes in 400 Gregorian years, after which minute, hour, day of month,
    month and day of week all repeat *)
Definition period : Z := days_per_era * 1440.

(** [2^28] minutes (about 510 years) cover a whole period *)
Definition horizon : nat := 28%nat.

(** Modelled from the spec: croniter's [get_next], which is not in the
    repository: the first minute boundary strictly after [ref] whose
    calendar fields satisfy the expression, looked for over more than one
    period; [None] stands for the error croniter raises when it finds no
    date. *)
Definition next (e : expr) (ref : Z) : option Z :=
  match search (matches_minute e) horizon (ref / 60 + 1) with
  | Some k => Some (60 * k)
  | None => None
  end.

End Cron.

(** ** Python control flow: outcomes of calls *)

Definition instant : Type := Z.
Bind Scope Z_scope with instant.

(** [asyncio.CancelledError] derives from [BaseException], not from
    [Exception]: an [except Exception] clause lets it through.  Every other
    exception the plugin can meet derives from [Exception]; it is kept with
    the text [str(e)] that the handlers format into their messages. *)
Inductive exn : Type :=
| CancelledError
| Exception (msg : string).

Inductive outcome (A : Type) : Type :=
| Returns (a : A)
| Raises (e : exn).
Arguments Returns {A} a.
Arguments Raises {A} e.

(** A call that is not awaited returns or raises an [Exception]. *)
Definition of_sync {A : Type} (r : string + A) : outcome A :=
  match r with
  | inl msg => Raises (Exception msg)
  | inr a => Returns a
  end.

(** ** The host: what the plugin calls but does not define *)

(** The AstrBot context, the providers, the event loop, the clock and the
    croniter package.  Every operation may read and change the state of the
    world, so two calls with the same arguments need not agree.
    - [chain_truth] is the truth value Python gives a result chain;
    - [croniter_new expr start] is [croniter.croniter(expr, start)], which
      raises on an expression it cannot parse, and [croniter_get_next] is
      [get_next(datetime)], which returns the next fire time and advances the
      iterator;
    - [asyncio_sleep delay] is [await asyncio.sleep(delay)]: the delay
      elapses ([Returns]), the task is cancelled while it waits
      ([CancelledError]), or the event loop refuses the delay and raises, as
      it does with [OverflowError] on an integer too large for a float. *)
Class Host : Type := {
  World : Type;
  Provider : Type;
  MessageChain : Type;
  Turn : Type;
  Croniter : Type;
  chain_truth : MessageChain -> bool;
  datetime_now : World -> instant * World;
  croniter_new : string -> instant -> string + Croniter;
  croniter_get_next : Croniter -> string + (instant * Croniter);
  get_provider_by_id : string -> World -> (string + option Provider) * World;
  text_chat :
    Provider -> string -> list Turn -> string -> World ->
    outcome (option (option MessageChain)) * World;
  send_message : string -> MessageChain -> World -> outcome unit * World;
  asyncio_sleep : Z -> World -> outcome unit * World
}.

(** The value [text_chat] returns is [None] for Python's [None] and
    [Some rc] for a response object whose [result_chain] attribute is [rc]. *)

Inductive trigger_type : Type := group | private.

Inductive log_level : Type := INFO | WARNING | ERROR.

(** The records written to the logger, one constructor per message of the
    source, with the values the message formats. *)
Inductive log_record : Type :=
| TriggerAdded (ty : trigger_type) (platform_name id cron_expr : string)
    (next_time : instant)
| InvalidCron (ty : trigger_type) (cron_expr e : string)
| BadFormat (ty : trigger_type) (config_str : string)
| ParseFailed (ty : trigger_type) (config_str e : string)
| LoopError (e : string)
| Executing (platform_name target cron_expr : string)
| Executed (next_time : instant)
| TaskFailed (e : string)
| ProviderNotFound (provider_name : string)
| ReplySent (platform_name target : string)
| NoValidReply (provider_name : string)
| TriggerFailed (e : string)
| Notice (message : string)
| NoticeToAdmin (admin message : string)
| NotifyFailed (e : string).

Section Plugin.

Context `{Host}.

(** One entry of [self.trigger_configs].  The dict objects are created by
    [_parse_configs] and never leave the list, so an entry is identified by
    its position. *)
Record TriggerConfig : Type := {
  type : trigger_type;
  platform : string;
  target_id : string;
  provider : string;
  cron_expression : string;
  cron : Croniter;
  next_run : instant;
  last_run : option instant;
  message : string
}.

Definition with_last_run (v : option instant) (c : TriggerConfig) :=
  {| type := type c; platform := platform c; target_id := target_id c;
     provider := provider c; cron_expression := cron_expression c;
     cron := cron c; next_run := next_run c; last_run := v;
     message := message c |}.

Definition with_cron (v : Croniter) (c : TriggerConfig) :=
  {| type := type c; platform := platform c; target_id := target_id c;
     provider := provider c; cron_expression := cron_expression c;
     cron := v; next_run := next_run c; last_run := last_run c;
     message := message c |}.

Definition with_next_run (v : instant) (c : TriggerConfig) :=
  {| type := type c; platform := platform c; target_id := target_id c;
     provider := provider c; cron_expression := cron_expression c;
     cron := cron c; next_run := v; last_run := last_run c;
     message := message c |}.

(** The attributes of [self] that the embedded methods read or write. *)
Record Plugin : Type := {
  scheduler_check_interval : Z;
  platform_group_provider_map : list string;
  platform_friend_provider_map : list string;
  admin_user_id : string;
  notification_on_failure : bool;
  notification_on_success : bool;
  trigger_configs : list TriggerConfig
}.

Definition with_trigger_configs (v : list TriggerConfig) (p : Plugin) :=
  {| scheduler_check_interval := scheduler_check_interval p;
     platform_group_provider_map := platform_group_provider_map p;
     platform_friend_provider_map := platform_friend_provider_map p;
     admin_user_id := admin_user_id p;
     notification_on_failure := notification_on_failure p;
     notification_on_success := notification_on_success p;
     trigger_configs := v |}.

(** What a run leaves behind, in order: the log, the calls to the host, and
    two markers for calls inside the plugin, [ExecuteTrigger i] for
    [_execute_trigger(self.trigger_configs[i])] and [SendNotification] for
    [_send_notification]. *)
Inductive event : Type :=
| Log (lvl : log_level) (r : log_record)
| ExecuteTrigger (i : nat)
| GetProviderById (provider_name : string)
| TextChat (p : Provider) (prompt : string) (context : list Turn)
    (system_prompt : string)
| SendMessage (unified_msg_origin : string) (chain : MessageChain)
| SendNotification (message level : string)
| Sleep (delay : Z).

Record State : Type := { world : World; self : Plugin }.

(** ** The monad: state, trace of events, exceptions *)

Definition M (A : Type) : Type := State -> outcome A * State * list event.

Definition ret {A : Type} (a : A) : M A := fun s => (Returns a, s, []).

Definition bind {A B : Type} (m : M A) (k : A -> M B) : M B := fun s =>
  match m s with
  | (Returns a, s1, t1) =>
      match k a s1 with
      | (r, s2, t2) => (r, s2, t1 ++ t2)
      end
  | (Raises e, s1, t1) => (Raises e, s1, t1)
  end.

#[global] Instance M_ret : MRet M := @ret.
#[global] Instance M_bind : MBind M := fun A B k m => bind m k.

Definition raise {A : Type} (e : exn) : M A := fun s => (Raises e, s, []).

(** [try: m  except BaseException as e: h e] *)
Definition try_with {A : Type} (m : M A) (h : exn -> M A) : M A := fun s =>
  match m s with
  | (Returns a, s1, t1) => (Returns a, s1, t1)
  | (Raises e, s1, t1) =>
      match h e s1 with
      | (r, s2, t2) => (r, s2, t1 ++ t2)
      end
  end.

(** [try: m  except Exception as e: h (str e)]: a cancellation passes. *)
Definition try_except {A : Type} (m : M A) (h : string -> M A) : M A :=
  try_with m (fun e =>
    match e with
    | Exception msg => h msg
    | CancelledError => raise CancelledError
    end).

Definition emit (ev : event) : M unit := fun s => (Returns tt, s, [ev]).

Definition logger (lvl : log_level) (r : log_record) : M unit :=
  emit (Log lvl r).

Definition gets {A : Type} (f : Plugin -> A) : M A := fun s =>
  (Returns (f (self s)), s, []).

Definition modify (f : Plugin -> Plugin) : M unit := fun s =>
  (Returns tt, {| world := world s; self := f (self s) |}, []).

Definition call_sync {A : Type} (op : World -> (string + A) * World) : M A :=
  fun s =>
    match op (world s) with
    | (r, w) => (of_sync r, {| world := w; self := self s |}, [])
    end.

Definition await {A : Type} (op : World -> outcome A * World) : M A :=
  fun s =>
    match op (world s) with
    | (r, w) => (r, {| world := w; self := self s |}, [])
    end.

Definition now : M instant :=
  call_sync (fun w => match datetime_now w with (t, w') => (inr t, w') end).

Definition croniter (expr_format : string) (start : instant) : M Croniter :=
  call_sync (fun w => (croniter_new expr_format start, w)).

Definition get_next (it : Croniter) : M (instant * Croniter) :=
  call_sync (fun w => (croniter_get_next it, w)).

(** [await asyncio.sleep(delay)]: whatever the event loop raises reaches the
    caller, a cancellation as well as an error about the delay, which the
    plugin takes from its configuration as it is. *)
Definition sleep (delay : Z) : M unit :=
  emit (Sleep delay);;
  await (asyncio_sleep delay).

(** [for x in l: body x] *)
Fixpoint for_each {A : Type} (l : list A) (body : A -> M unit) : M unit :=
  match l with
  | [] => ret tt
  | x :: rest => body x;; for_each rest body
  end.

(** [self.trigger_configs[i]] *)
Definition config_at (i : nat) : M TriggerConfig :=
  configs ← gets trigger_configs;
  match configs !! i with
  | Some c => ret c
  | None => raise (Exception "list index out of range")
  end.

(** an assignment to a key of [self.trigger_configs[i]] *)
Definition update_config (i : nat) (f : TriggerConfig -> TriggerConfig)
  : M unit :=
  c ← config_at i;
  modify (fun p => with_trigger_configs (<[i := f c]> (trigger_configs p)) p).

(** ** [_parse_configs] *)

(** The body of either loop of [_parse_configs]; [ty] is the loop. *)
Definition parse_config (ty : trigger_type) (config_str : string) : M unit :=
  try_except
    (let parts := Str.split "::" config_str in
     if (5 <=? length parts)%nat then
       let platform_name := nth 0 parts "" in
       let id := nth 1 parts "" in
       let provider_name := nth 2 parts "" in
       let cron_expr := nth 3 parts "" in
       let message_content := Str.join "::" (drop 4 parts) in
       try_except
         (t0 ← now;
          it ← croniter cron_expr t0;
          '(next_time, _) ← get_next it;
          t1 ← now;
          fresh ← croniter cron_expr t1;
          modify (fun p =>
            with_trigger_configs
              (trigger_configs p ++
               [{| type := ty; platform := platform_name; target_id := id;
                   provider := provider_name; cron_expression := cron_expr;
                   cron := fresh; next_run := next_time; last_run := None;
                   message := message_content |}]) p);;
          logger INFO (TriggerAdded ty platform_name id cron_expr next_time))
         (fun e => logger ERROR (InvalidCron ty cron_expr e))
     else logger WARNING (BadFormat ty config_str))
    (fun e => logger ERROR (ParseFailed ty config_str e)).

Definition parse_configs : M unit :=
  modify (with_trigger_configs []);;
  groups ← gets platform_group_provider_map;
  for_each groups (parse_config group);;
  friends ← gets platform_friend_provider_map;
  for_each friends (parse_config private).

(** ** [_send_notification] *)

Definition send_notification (message level : string) : M unit :=
  emit (SendNotification message level);;
  try_except
    (admin ← gets admin_user_id;
     if String.eqb admin "admin" then logger INFO (Notice message)
     else logger INFO (NoticeToAdmin admin message))
    (fun e => logger ERROR (NotifyFailed e)).

(** ** [_execute_trigger] *)

Definition default_system_prompt : string := "你是一个有用的AI助手。".

Definition unified_msg_origin (config : TriggerConfig) : string :=
  match type config with
  | group => platform config +:+ ":group_message:" +:+ target_id config
  | private => platform config +:+ ":private_message:" +:+ target_id config
  end.

(** [llm_response and llm_response.result_chain] *)
Definition valid_reply (llm_response : option (option MessageChain))
  : option MessageChain :=
  match llm_response with
  | Some (Some chain) => if chain_truth chain then Some chain else None
  | _ => None
  end.

(** [_execute_trigger(self.trigger_configs[i])] *)
Definition execute_trigger (i : nat) : M unit :=
  emit (ExecuteTrigger i);;
  try_except
    (config ← config_at i;
     found ← (emit (GetProviderById (provider config));;
              call_sync (get_provider_by_id (provider config)));
     match found with
     | None => logger WARNING (ProviderNotFound (provider config))
     | Some p =>
         llm_response ←
           (emit (TextChat p (message config) [] default_system_prompt);;
            await (text_chat p (message config) [] default_system_prompt));
         match valid_reply llm_response with
         | Some chain =>
             emit (SendMessage (unified_msg_origin config) chain);;
             await (send_message (unified_msg_origin config) chain);;
             logger INFO (ReplySent (platform config) (target_id config))
         | None => logger WARNING (NoValidReply (provider config))
         end
     end)
    (fun e => logger ERROR (TriggerFailed e)).

(** ** [_check_and_execute_triggers] *)

Definition success_message (config : TriggerConfig) : string :=
  "✅ 定时LLM触发任务执行成功: " +:+ platform config +:+ ":"
  +:+ target_id config.

Definition failure_message (e : string) : string :=
  "❌ 定时LLM触发任务执行失败: " +:+ e.

(** The body of the loop, for the entry at position [i]. *)
Definition check_trigger (current_time : instant) (i : nat) : M unit :=
  try_except
    (config ← config_at i;
     if (next_run config <=? current_time)%Z then
       logger INFO (Executing (platform config) (target_id config)
                      (cron_expression config));;
       execute_trigger i;;
       update_config i (with_last_run (Some current_time));;
       it ← croniter (cron_expression config) current_time;
       update_config i (with_cron it);;
       '(next_time, it') ← get_next it;
       update_config i (with_cron it');;
       update_config i (with_next_run next_time);;
       logger INFO (Executed next_time);;
       on_success ← gets notification_on_success;
       if on_success : bool then send_notification (success_message config) "success"
       else ret tt
     else ret tt)
    (fun e =>
       logger ERROR (TaskFailed e);;
       on_failure ← gets notification_on_failure;
       if on_failure : bool then send_notification (failure_message e) "error"
       else ret tt).

Definition check_and_execute_triggers : M unit :=
  current_time ← now;
  configs ← gets trigger_configs;
  for_each (seq 0 (length configs)) (check_trigger current_time).

(** ** [_scheduler_loop] *)

(** [while True] is unfolded [fuel] times; a loop still going when the fuel
    is spent is [Looping], one left through [break] is [Stopped]. *)
Inductive loop_status : Type := Looping | Stopped.

(** One round of the loop: the [try] statement.  The result tells whether
    the loop goes round again ([true]) or is left by [break] ([false]). *)
Definition loop_round (scan : M unit) : M bool :=
  try_with
    (interval ← gets scheduler_check_interval;
     sleep interval;;
     scan;;
     ret true)
    (fun e =>
       match e with
       | CancelledError => ret false
       | Exception msg =>
           logger ERROR (LoopError msg);;
           interval ← gets scheduler_check_interval;
           sleep interval;;
           ret true
       end).

Fixpoint scheduler_loop_with (scan : M unit) (fuel : nat) : M loop_status :=
  match fuel with
  | O => ret Looping
  | S fuel' =>
      again ← loop_round scan;
      if again : bool then scheduler_loop_with scan fuel' else ret Stopped
  end.

Definition scheduler_loop : nat -> M loop_status :=
  scheduler_loop_with check_and_execute_triggers.

(** ** Reading a trace *)

Definition count (p : event -> bool) (t : list event) : nat :=
  length (List.filter p t).

Definition is_execute (j : nat) (ev : event) : bool :=
  match ev with
  | ExecuteTrigger i => Nat.eqb i j
  | _ => false
  end.

Definition is_send_message (ev : event) : bool :=
  match ev with
  | SendMessage _ _ => true
  | _ => false
  end.

Definition is_text_chat (ev : event) : bool :=
  match ev with
  | TextChat _ _ _ _ => true
  | _ => false
  end.

Definition is_notification (ev : event) : bool :=
  match ev with
  | SendNotification _ _ => true
  | _ => false
  end.

(** a failure notification: [_send_notification(..., "error")] *)
Definition is_failure_notification (ev : event) : bool :=
  match ev with
  | SendNotification _ level => String.eqb level "error"
  | _ => false
  end.

(** ** States and records reached by a scan *)

(** the state after [self.trigger_configs[i]] has been given the value [c] *)
Definition set_config (i : nat) (c : TriggerConfig) (s : State) : State :=
  {| world := world s;
     self :=
       with_trigger_configs (<[i := c]> (trigger_configs (self s))) (self s) |}.

(** the entry [c] once it has fired at [current_time] and croniter has
    answered [next_time], leaving the iterator [it] *)
Definition fired (current_time : instant) (it : Croniter)
    (next_time : instant) (c : TriggerConfig) : TriggerConfig :=
  with_next_run next_time (with_cron it (with_last_run (Some current_time) c)).

(** the log line of [_send_notification] *)
Definition notice (p : Plugin) (message : string) : event :=
  Log INFO (if String.eqb (admin_user_id p) "admin"
            then Notice message
            else NoticeToAdmin (admin_user_id p) message).

(** croniter accepts the expression of [c] at [current_time] *)
Definition croniter_ok (current_time : instant) (c : TriggerConfig) : Prop :=
  exists it next_time it',
    croniter_new (cron_expression c) current_time = inr it
    /\ croniter_get_next it = inr (next_time, it').

(** What a completed scan at [current_time] has done with the entry that
    was [c] at position [j] when it started: [p] is the plugin before,
    [p'] after, [t] the trace of the scan. *)
Definition entry_done (current_time : instant) (p : Plugin)
    (c : TriggerConfig) (j : nat) (p' : Plugin) (t : list event) : Prop :=
  if (next_run c <=? current_time)%Z then
    count (is_execute j) t = 1
    /\ forall it next_time it',
        croniter_new (cron_expression c) current_time = inr it ->
        croniter_get_next it = inr (next_time, it') ->
        trigger_configs p' !! j = Some (fired current_time it' next_time c)
        /\ (notification_on_success p = true ->
            In (SendNotification (success_message c) "success") t)
  else
    count (is_execute j) t = 0 /\ trigger_configs p' !! j = Some c.

(** No awaited call of the host is cancelled. *)
Definition never_cancelled : Prop :=
  (forall p prompt context system_prompt w,
      (text_chat p prompt context system_prompt w).1 <> Raises CancelledError)
  /\ (forall origin chain w,
      (send_message origin chain w).1 <> Raises CancelledError).

End Plugin.

(** ** A host to run the plugin on *)

(** A small deterministic host for the examples: the world is the clock, a
    sleep advances it and always elapses, croniter is the evaluator of
    [Cron], every provider name but ["ghost"] is registered, the provider
    ["down"] raises, the provider ["mute"] answers without a result chain and
    every other one echoes the prompt. *)
Module Demo.

Definition cron_new (expr_format : string) (start : instant)
  : string + (Cron.expr * instant) :=
  match Cron.parse expr_format with
  | Some e => inr (e, start)
  | None => inl "bad cron expression"
  end.

Definition cron_get_next (it : Cron.expr * instant)
  : string + (instant * (Cron.expr * instant)) :=
  match Cron.next it.1 it.2 with
  | Some t => inr (t, (it.1, t))
  | None => inl "failed to find next date"
  end.

Definition lookup_provider (name : string) (w : Z)
  : (string + option string) * Z :=
  (if String.eqb name "ghost" then inr None else inr (Some name), w).

Definition chat (p prompt : string) (context : list string)
    (system_prompt : string) (w : Z)
  : outcome (option (option (list string))) * Z :=
  if String.eqb p "down" then (Raises (Exception "provider down"), w)
  else if String.eqb p "mute" then (Returns (Some None), w)
  else (Returns (Some (Some [prompt])), w).

Definition host : Host := {|
  World := Z;
  Provider := string;
  MessageChain := list string;
  Turn := string;
  Croniter := Cron.expr * instant;
  chain_truth := fun chain => negb (Nat.eqb (length chain) 0);
  datetime_now := fun w => (w, w);
  croniter_new := cron_new;
  croniter_get_next := cron_get_next;
  get_provider_by_id := lookup_provider;
  text_chat := chat;
  send_message := fun _ _ w => (Returns tt, w);
  asyncio_sleep := fun delay w => (Returns tt, (w + delay)%Z)
|}.

#[local] Existing Instance host.

(** 2024-01-01T00:02:30 and, three minutes later, 00:05:30 *)
Definition t_start : instant := 1704067350%Z.
Definition t_scan : instant := 1704067530%Z.

Definition every5 : Cron.expr :=
  {| Cron.minute := [Cron.Every 5]; Cron.hour := [Cron.Star];
     Cron.day_of_month := [Cron.Star]; Cron.month := [Cron.Star];
     Cron.day_of_week := [Cron.Star] |}.

(** a plugin as [__init__] leaves it before [_parse_configs] *)
Definition plugin (groups friends : list string) (on_failure on_success : bool)
  : @Plugin host :=
  {| scheduler_check_interval := 30;
     platform_group_provider_map := groups;
     platform_friend_provider_map := friends;
     admin_user_id := "admin";
     notification_on_failure := on_failure;
     notification_on_success := on_success;
     trigger_configs := [] |}.

(** an entry due since 00:05 *)
Definition entry (ty : trigger_type) (target provider_name : string)
  : @TriggerConfig host :=
  {| type := ty; platform := "qq"; target_id := target;
     provider := provider_name; cron_expression := "*/5 * * * *";
     cron := (every5, t_start); next_run := 1704067500%Z; last_run := None;
     message := "hello" |}.

Definition state_at (w : Z) (p : @Plugin host) : @State host :=
  @Build_State host w p.

Definition with_entries (entries : list (@TriggerConfig host))
    (p : @Plugin host) : @State host :=
  state_at t_scan (with_trigger_configs entries p).

(** a host that differs in one point: the sleep is cancelled once the clock
    has reached [deadline] *)
Definition cancelling_host (deadline : Z) : Host := {|
  World := Z;
  Provider := string;
  MessageChain := list string;
  Turn := string;
  Croniter := Cron.expr * instant;
  chain_truth := fun chain => negb (Nat.eqb (length chain) 0);
  datetime_now := fun w => (w, w);
  croniter_new := cron_new;
  croniter_get_next := cron_get_next;
  get_provider_by_id := lookup_provider;
  text_chat := chat;
  send_message := fun _ _ w => (Returns tt, w);
  asyncio_sleep := fun delay w =>
    if (deadline <=? w)%Z then (Raises CancelledError, w)
    else (Returns tt, (w + delay)%Z)
|}.

(** a plugin without triggers on that host, at 00:05:30 *)
Definition cancelling_state (deadline : Z) : @State (cancelling_host deadline) :=
  @Build_State (cancelling_host deadline) t_scan
    (@Build_Plugin (cancelling_host deadline) 30 [] [] "admin" true false []).

End Demo.

(** ** The parts of the plugin that a scan must not touch *)

Section Statics.

Context `{Host}.

(** what [_parse_configs] writes into an entry once and for all *)
Definition identity (c : TriggerConfig)
  : trigger_type * string * string * string * string * string :=
  (type c, platform c, target_id c, provider c, cron_expression c, message c).

(** the settings, and the identities of the entries in their order *)
Definition static (p : Plugin)
  : Z * list string * list string * string * bool * bool
    * list (trigger_type * string * string * string * string * string) :=
  (scheduler_check_interval p, platform_group_provider_map p,
   platform_friend_provider_map p, admin_user_id p,
   notification_on_failure p, notification_on_success p,
   identity <$> trigger_configs p).

(** [c] is what the loop of type [ty] makes of the raw string
    [config_str] *)
Definition parsed_from (ty : trigger_type) (config_str : string)
    (c : TriggerConfig) : Prop :=
  5 <= length (Str.split "::" config_str)
  /\ type c = ty
  /\ platform c = nth 0 (Str.split "::" config_str) ""
  /\ target_id c = nth 1 (Str.split "::" config_str) ""
  /\ provider c = nth 2 (Str.split "::" config_str) ""
  /\ cron_expression c = nth 3 (Str.split "::" config_str) ""
  /\ message c = Str.join "::" (drop 4 (Str.split "::" config_str))
  /\ last_run c = None.

End Statics.

(** no [':'] in the string *)
Fixpoint colon_free (s : string) : bool :=
  match s with
  | EmptyString => true
  | String c s' => negb (Ascii.eqb c ":") && colon_free s'
  end.

(** ** The [llm_trigger_test] command and the unloading hook *)

(** What [test_trigger] yields through [event.plain_result]. *)
Inductive reply : Type :=
| AdminOnly
| TestStarted
| TestFinished (success_count total_count : nat).

(** The scheduler task as [terminate] sees it: [task_done] is
    [self._scheduler_task.done()], [task_cancel] is [cancel()] and
    [task_wait] is [await self._scheduler_task]. *)
Class TaskApi `{Host} : Type := {
  task_done : World -> bool;
  task_cancel : World -> World;
  task_wait : World -> outcome unit * World
}.

Section Commands.

Context `{Host}.

(** The trace of a command handler or of [terminate]: the events of the
    methods it calls, what it yields, its own two log lines and its calls on
    the task. *)
Inductive command_event : Type :=
| Core (ev : event)
| PlainResult (r : reply)
| TestFailedLog (e : string)
| UnloadedLog
| TerminateFailedLog (e : string)
| TaskCancel
| TaskWait.

Definition C (A : Type) : Type :=
  State -> outcome A * State * list command_event.

Definition C_ret {A : Type} (a : A) : C A := fun s => (Returns a, s, []).

Definition C_bind {A B : Type} (m : C A) (k : A -> C B) : C B := fun s =>
  match m s with
  | (Returns a, s1, t1) =>
      match k a s1 with
      | (r, s2, t2) => (r, s2, t1 ++ t2)
      end
  | (Raises e, s1, t1) => (Raises e, s1, t1)
  end.

#[global] Instance C_mret : MRet C := @C_ret.
#[global] Instance C_mbind : MBind C := fun A B k m => C_bind m k.

(** a method of the plugin called from a handler *)
Definition lift {A : Type} (m : M A) : C A := fun s =>
  match m s with
  | (r, s1, t1) => (r, s1, Core <$> t1)
  end.

Definition C_emit (ev : command_event) : C unit := fun s =>
  (Returns tt, s, [ev]).

(** [try: m  except BaseException as e: h e] *)
Definition C_try_with {A : Type} (m : C A) (h : exn -> C A) : C A := fun s =>
  match m s with
  | (Returns a, s1, t1) => (Returns a, s1, t1)
  | (Raises e, s1, t1) =>
      match h e s1 with
      | (r, s2, t2) => (r, s2, t1 ++ t2)
      end
  end.

(** [try: m  except Exception as e: h (str e)] *)
Definition C_try_except {A : Type} (m : C A) (h : string -> C A) : C A :=
  C_try_with m (fun e =>
    match e with
    | Exception msg => h msg
    | CancelledError => fun s => (Raises CancelledError, s, [])
    end).

(** the loop of [test_trigger]; [success_count] is the counter *)
Fixpoint test_each (l : list nat) (success_count : nat) : C nat :=
  match l with
  | [] => C_ret success_count
  | i :: rest =>
      n ← C_try_except
            (lift (execute_trigger i);; C_ret (S success_count))
            (fun e => C_emit (TestFailedLog e);; C_ret success_count);
      test_each rest n
  end.

(** [test_trigger], driven to the end; [sender_id] is what
    [event.get_sender_id()] returned. *)
Definition test_trigger (sender_id : string) : C unit :=
  admin ← lift (gets admin_user_id);
  if negb (String.eqb sender_id admin) then C_emit (PlainResult AdminOnly)
  else
    C_emit (PlainResult TestStarted);;
    configs ← lift (gets trigger_configs);
    success_count ← test_each (seq 0 (length configs)) 0;
    C_emit (PlainResult (TestFinished success_count (length configs))).

Definition C_raise {A : Type} (e : exn) : C A := fun s => (Raises e, s, []).

(** calls on the host that a handler makes itself *)
Definition C_read {A : Type} (f : World -> A) : C A := fun s =>
  (Returns (f (world s)), s, []).

Definition C_write (f : World -> World) : C unit := fun s =>
  (Returns tt, {| world := f (world s); self := self s |}, []).

Definition C_await {A : Type} (op : World -> outcome A * World) : C A :=
  fun s =>
    match op (world s) with
    | (r, w) => (r, {| world := w; self := self s |}, [])
    end.

(** [terminate]; [has_task] is [hasattr(self, '_scheduler_task')]. *)
Definition terminate `{!TaskApi} (has_task : bool) : C unit :=
  C_try_except
    ((if has_task then
        done ← C_read task_done;
        if negb done then
          C_emit TaskCancel;;
          C_write task_cancel;;
          C_try_with
            (C_emit TaskWait;; C_await task_wait)
            (fun e =>
               match e with
               | CancelledError => C_ret tt
               | Exception msg => C_raise (Exception msg)
               end)
        else C_ret tt
      else C_ret tt);;
     C_emit UnloadedLog)
    (fun e => C_emit (TerminateFailedLog e)).

(** ** Reading a command trace *)

Definition is_core_execute (j : nat) (ev : command_event) : bool :=
  match ev with
  | Core (ExecuteTrigger i) => Nat.eqb i j
  | _ => false
  end.

Definition is_test_failure (ev : command_event) : bool :=
  match ev with
  | TestFailedLog _ => true
  | _ => false
  end.

Definition command_count (p : command_event -> bool)
    (t : list command_event) : nat :=
  length (List.filter p t).

End Commands.

(** ** More hosts to run the plugin on *)

(** The example host with its registry, its providers and its delivery
    replaced. *)
Module Lab.

Definition host
    (lookup : string -> Z -> (string + option string) * Z)
    (chat : string -> string -> list string -> string -> Z ->
            outcome (option (option (list string))) * Z)
    (send : string -> list string -> Z -> outcome unit * Z) : Host := {|
  World := Z;
  Provider := string;
  MessageChain := list string;
  Turn := string;
  Croniter := Cron.expr * instant;
  chain_truth := fun chain => negb (Nat.eqb (length chain) 0);
  datetime_now := fun w => (w, w);
  croniter_new := Demo.cron_new;
  croniter_get_next := Demo.cron_get_next;
  get_provider_by_id := lookup;
  text_chat := chat;
  send_message := send;
  asyncio_sleep := fun delay w => (Returns tt, (w + delay)%Z)
|}.

(** a registry that fails, a provider whose call is cancelled, a delivery
    that fails *)
Definition broken_lookup (name : string) (w : Z)
  : (string + option string) * Z := (inl "registry down", w).

Definition cancelled_chat (p prompt : string) (context : list string)
    (system_prompt : string) (w : Z)
  : outcome (option (option (list string))) * Z := (Raises CancelledError, w).

Definition ok_send (origin : string) (chain : list string) (w : Z)
  : outcome unit * Z := (Returns tt, w).

Definition broken_send (origin : string) (chain : list string) (w : Z)
  : outcome unit * Z := (Raises (Exception "send failed"), w).

(** one group entry for the provider [provA], due since 00:05, in a plugin
    scanned at 00:05:30 *)
Definition entry (lookup : string -> Z -> (string + option string) * Z)
    (chat : string -> string -> list string -> string -> Z ->
            outcome (option (option (list string))) * Z)
    (send : string -> list string -> Z -> outcome unit * Z)
  : @TriggerConfig (host lookup chat send) :=
  @Build_TriggerConfig (host lookup chat send) group "qq" "g1" "provA"
    "*/5 * * * *" (Demo.every5, Demo.t_start) 1704067500%Z None "hello".

Definition plugin (lookup : string -> Z -> (string + option string) * Z)
    (chat : string -> string -> list string -> string -> Z ->
            outcome (option (option (list string))) * Z)
    (send : string -> list string -> Z -> outcome unit * Z)
  : @Plugin (host lookup chat send) :=
  @Build_Plugin (host lookup chat send) 30 [] [] "admin" true false
    [entry lookup chat send].

Definition state (lookup : string -> Z -> (string + option string) * Z)
    (chat : string -> string -> list string -> string -> Z ->
            outcome (option (option (list string))) * Z)
    (send : string -> list string -> Z -> outcome unit * Z)
  : @State (host lookup chat send) :=
  @Build_State (host lookup chat send) Demo.t_scan (plugin lookup chat send).

(** a task that is still running and ends cancelled when awaited; the world
    is the clock *)
Definition running_task : @TaskApi Demo.host := {|
  task_done := fun _ => false;
  task_cancel := fun w => w;
  task_wait := fun w => (Raises CancelledError, w)
|}.

(** an entry of the example host whose expression croniter rejects *)
Definition bad_entry : @TriggerConfig Demo.host :=
  @Build_TriggerConfig Demo.host group "qq" "g9" "provA" "99 * * * *"
    (Demo.every5, Demo.t_start) 1704067500%Z None "hello".

(** an entry of the example host that is due at 00:10 only *)
Definition waiting_entry : @TriggerConfig Demo.host :=
  @Build_TriggerConfig Demo.host private "qq" "u7" "provA" "*/5 * * * *"
    (Demo.every5, Demo.t_start) 1704067800%Z None "later".

(** The example host with the sleep of CPython's event loop, which adds the
    delay to its float clock: an integer of [2 ^ 1024] or more cannot be
    converted and the call raises [OverflowError]. *)
Definition float_host : Host := {|
  World := Z;
  Provider := string;
  MessageChain := list string;
  Turn := string;
  Croniter := Cron.expr * instant;
  chain_truth := fun chain => negb (Nat.eqb (length chain) 0);
  datetime_now := fun w => (w, w);
  croniter_new := Demo.cron_new;
  croniter_get_next := Demo.cron_get_next;
  get_provider_by_id := Demo.lookup_provider;
  text_chat := Demo.chat;
  send_message := fun _ _ w => (Returns tt, w);
  asyncio_sleep := fun delay w =>
    if (2 ^ 1024 <=? delay)%Z
    then (Raises (Exception "int too large to convert to float"), w)
    else (Returns tt, (w + delay)%Z)
|}.

(** a plugin on that host with one due entry, configured with
    [scheduler_check_interval = 10 ** 400], at 00:05:30 *)
Definition float_entry : @TriggerConfig float_host :=
  @Build_TriggerConfig float_host group "qq" "g1" "provA" "*/5 * * * *"
    (Demo.every5, Demo.t_start) 1704067500%Z None "hello".

Definition float_state : @State float_host :=
  @Build_State float_host Demo.t_scan
    (@Build_Plugin float_host (10 ^ 400)%Z [] [] "admin" true false
       [float_entry]).

End Lab.

(* ===================================================================== *)
(** * Part II: lemmas and theorems                                        *)
(* ===================================================================== *)

(** ** The cron evaluator *)

Section CronFacts.

Local Open Scope Z_scope.

Lemma search_sound p d lo k :
  Cron.search p d lo = Some k ->
  lo <= k < lo + 2 ^ Z.of_nat d /\ p k = true.
Proof.
  revert lo; induction d as [|d IH]; intros lo; simpl Cron.search.
  - destruct (p lo) eqn:Hp; [|discriminate].
    intros [= <-]. change (2 ^ Z.of_nat 0) with 1. split; [lia|assumption].
  - rewrite Nat2Z.inj_succ, Z.pow_succ_r by lia.
    assert (0 < 2 ^ Z.of_nat d) by (apply Z.pow_pos_nonneg; lia).
    destruct (Cron.search p d lo) as [k'|] eqn:Hl.
    + intros [= <-]. destruct (IH _ Hl) as [? ?]. split; [lia|assumption].
    + intros Hr. destruct (IH _ Hr) as [? ?]. split; [lia|assumption].
Qed.

Lemma search_none p d lo :
  Cron.search p d lo = None ->
  forall j, lo <= j < lo + 2 ^ Z.of_nat d -> p j = false.
Proof.
  revert lo; induction d as [|d IH]; intros lo; simpl Cron.search.
  - destruct (p lo) eqn:Hp; [discriminate|].
    change (2 ^ Z.of_nat 0) with 1. intros _ j Hj.
    replace j with lo by lia. assumption.
  - rewrite Nat2Z.inj_succ, Z.pow_succ_r by lia.
    destruct (Cron.search p d lo) as [k'|] eqn:Hl; [discriminate|].
    intros Hr j Hj.
    destruct (Z_lt_le_dec j (lo + 2 ^ Z.of_nat d)).
    + apply (IH _ Hl); lia.
    + apply (IH _ Hr); lia.
Qed.

Lemma search_least p d lo k :
  Cron.search p d lo = Some k ->
  forall j, lo <= j < k -> p j = false.
Proof.
  revert lo; induction d as [|d IH]; intros lo; simpl Cron.search.
  - destruct (p lo); [|discriminate]. intros [= <-] j Hj. lia.
  - destruct (Cron.search p d lo) as [k'|] eqn:Hl.
    + intros [= <-]. eapply IH; eassumption.
    + intros Hr j Hj.
      destruct (Z_lt_le_dec j (lo + 2 ^ Z.of_nat d)).
      * apply (search_none _ _ _ Hl); lia.
      * apply (IH _ Hr); lia.
Qed.

Lemma search_complete p d lo j :
  lo <= j < lo + 2 ^ Z.of_nat d -> p j = true ->
  exists k, Cron.search p d lo = Some k.
Proof.
  intros Hj Hp. destruct (Cron.search p d lo) as [k|] eqn:Hs; [eauto|].
  rewrite (search_none _ _ _ Hs j Hj) in Hp. discriminate.
Qed.

(** The calendar fields read by [matches_minute] repeat every 400 years. *)

Lemma day_of_era_period day :
  Cron.day_of_era (day + Cron.days_per_era) = Cron.day_of_era day.
Proof.
  unfold Cron.day_of_era.
  replace (day + Cron.days_per_era + 719468)
    with (day + 719468 + 1 * Cron.days_per_era) by ring.
  apply Z_mod_plus_full.
Qed.

Lemma dow_of_day_period day :
  Cron.dow_of_day (day + Cron.days_per_era) = Cron.dow_of_day day.
Proof.
  unfold Cron.dow_of_day, Cron.days_per_era.
  replace (day + 146097 + 4) with (day + 4 + 20871 * 7) by ring.
  apply Z_mod_plus_full.
Qed.

Lemma matches_minute_period e k :
  Cron.matches_minute e (k + Cron.period) = Cron.matches_minute e k.
Proof.
  unfold Cron.matches_minute, Cron.period.
  replace ((k + Cron.days_per_era * 1440) / 1440)
    with (k / 1440 + Cron.days_per_era)
    by (symmetry; apply Z.div_add; lia).
  replace ((k + Cron.days_per_era * 1440) mod 60) with (k mod 60).
  2:{ unfold Cron.days_per_era.
      replace (k + 146097 * 1440) with (k + 3506328 * 60) by ring.
      symmetry; apply Z_mod_plus_full. }
  replace (((k + Cron.days_per_era * 1440) / 60) mod 24)
    with ((k / 60) mod 24).
  2:{ unfold Cron.days_per_era.
      replace (k + 146097 * 1440) with (k + 3506328 * 60) by ring.
      rewrite Z.div_add by lia.
      replace (k / 60 + 3506328) with (k / 60 + 146097 * 24) by ring.
      symmetry; apply Z_mod_plus_full. }
  unfold Cron.month_of_day, Cron.dom_of_day.
  rewrite day_of_era_period, dow_of_day_period. reflexivity.
Qed.

Lemma matches_minute_periods_nat e k (n : nat) :
  Cron.matches_minute e (k + Z.of_nat n * Cron.period)
  = Cron.matches_minute e k.
Proof.
  induction n as [|n IH].
  - f_equal. simpl. ring.
  - replace (k + Z.of_nat (S n) * Cron.period)
      with (k + Z.of_nat n * Cron.period + Cron.period)
      by (rewrite Nat2Z.inj_succ; ring).
    rewrite matches_minute_period. exact IH.
Qed.

Lemma matches_minute_periods e k j :
  Cron.matches_minute e (k + j * Cron.period) = Cron.matches_minute e k.
Proof.
  destruct (Z_lt_le_dec j 0).
  - rewrite <- (matches_minute_periods_nat e (k + j * Cron.period) (Z.to_nat (- j))).
    f_equal. rewrite Z2Nat.id by lia. ring.
  - rewrite <- (matches_minute_periods_nat e k (Z.to_nat j)).
    f_equal. rewrite Z2Nat.id by lia. ring.
Qed.

Lemma period_within_horizon : Cron.period <= 2 ^ Z.of_nat Cron.horizon.
Proof. unfold Z.le. vm_compute. discriminate. Qed.

Lemma period_pos : 0 < Cron.period.
Proof. unfold Cron.period, Cron.days_per_era. lia. Qed.

(** Every window of one period holds a minute congruent to a given one. *)
Lemma matching_minute_in_window e k0 lo :
  Cron.matches_minute e k0 = true ->
  exists k, lo <= k < lo + Cron.period /\ Cron.matches_minute e k = true.
Proof.
  intros Hk0. pose proof period_pos as Hpos.
  exists (lo + (k0 - lo) mod Cron.period). split.
  - pose proof (Z.mod_pos_bound (k0 - lo) Cron.period Hpos). lia.
  - rewrite <- Hk0.
    rewrite <- (matches_minute_periods e k0 (- ((k0 - lo) / Cron.period))).
    f_equal.
    pose proof (Z.div_mod (k0 - lo) Cron.period) as Hdm. lia.
Qed.

Lemma next_after e ref t : Cron.next e ref = Some t -> ref < t.
Proof.
  unfold Cron.next.
  destruct (Cron.search _ _ _) as [k|] eqn:Hs; [|discriminate].
  intros [= <-]. apply search_sound in Hs as [[Hlo _] _].
  pose proof (Z.div_mod ref 60). pose proof (Z.mod_pos_bound ref 60). lia.
Qed.

Lemma next_matches e ref t :
  Cron.next e ref = Some t -> Cron.matches e t = true /\ t mod 60 = 0.
Proof.
  unfold Cron.next, Cron.matches.
  destruct (Cron.search _ _ _) as [k|] eqn:Hs; [|discriminate].
  intros [= <-]. apply search_sound in Hs as [_ Hp].
  replace (60 * k) with (k * 60) by ring.
  rewrite Z.div_mul, Z_mod_mult by lia. auto.
Qed.

(** No minute boundary between the reference and the result matches. *)
Lemma next_earliest e ref t k :
  Cron.next e ref = Some t ->
  ref < 60 * k -> 60 * k < t -> Cron.matches_minute e k = false.
Proof.
  unfold Cron.next.
  destruct (Cron.search _ _ _) as [k'|] eqn:Hs; [|discriminate].
  intros [= <-] Hlo Hhi. apply (search_least _ _ _ _ Hs).
  pose proof (Z.div_mod ref 60). pose proof (Z.mod_pos_bound ref 60). lia.
Qed.

(** An expression that matches some minute has a next fire time from every
    reference instant. *)
Lemma next_total e k0 ref :
  Cron.matches_minute e k0 = true -> exists t, Cron.next e ref = Some t.
Proof.
  intros Hk0.
  destruct (matching_minute_in_window e k0 (ref / 60 + 1) Hk0) as (k & Hk & Hm).
  pose proof period_within_horizon.
  destruct (search_complete (Cron.matches_minute e) Cron.horizon
              (ref / 60 + 1) k) as [k' Hs]; [lia|assumption|].
  unfold Cron.next. rewrite Hs. eauto.
Qed.

(** C3. For a valid expression, a computed next fire time lies strictly
    after the reference instant, and computing the next fire time from that
    result gives a strictly later instant again.  An expression that has a
    next fire time from one reference (which is how [_parse_configs]
    validates it) has one, strictly later, from every reference. *)
Theorem next_fire_time_advances s e ref t :
  Cron.parse s = Some e ->
  Cron.next e ref = Some t ->
  ref < t
  /\ (exists t', Cron.next e t = Some t' /\ t < t')
  /\ forall ref', exists t', Cron.next e ref' = Some t' /\ ref' < t'.
Proof.
  intros _ Hnext. split; [exact (next_after _ _ _ Hnext)|].
  destruct (next_matches _ _ _ Hnext) as [Hm _].
  assert (Htotal : forall ref', exists t',
               Cron.next e ref' = Some t' /\ ref' < t').
  { intros ref'. destruct (next_total e (t / 60) ref' Hm) as [t' Ht'].
    exists t'. split; [exact Ht'|exact (next_after _ _ _ Ht')]. }
  split; [apply Htotal|exact Htotal].
Qed.

End CronFacts.

(** ** Splitting and joining *)

Lemma prefix_app sep s :
  String.prefix sep s = true -> exists rest, s = sep +:+ rest.
Proof.
  revert s; induction sep as [|c sep IH]; intros s.
  - intros _. exists s. reflexivity.
  - destruct s as [|c' s]; simpl; [discriminate|].
    destruct (Ascii.ascii_dec c c') as [->|]; [|discriminate].
    intros Hp. destruct (IH _ Hp) as [rest ->]. exists rest. reflexivity.
Qed.

Lemma string_length_app u v :
  String.length (u +:+ v) = (String.length u + String.length v)%nat.
Proof. induction u as [|c u IH]; simpl; [reflexivity|now rewrite IH]. Qed.

#[local] Arguments String.prefix : simpl never.

Lemma split_aux_skip sep u rest :
  Str.split_aux sep (String.length u) (u +:+ rest) = Str.split_aux sep 0 rest.
Proof. induction u as [|c u IH]; simpl; [reflexivity|exact IH]. Qed.

Lemma split_aux_nonempty sep k s : Str.split_aux sep k s <> [].
Proof.
  revert k; induction s as [|c s IH]; intros k; simpl; [discriminate|].
  destruct k; [|apply IH].
  destruct (String.prefix sep (String c s)); [discriminate|].
  destruct (Str.split_aux sep 0 s); discriminate.
Qed.

Lemma join_cons sep p l :
  l <> [] -> Str.join sep (p :: l) = p +:+ sep +:+ Str.join sep l.
Proof. destruct l; [congruence|reflexivity]. Qed.

Lemma join_cons_char sep c seg segs :
  Str.join sep (String c seg :: segs) = String c (Str.join sep (seg :: segs)).
Proof. destruct segs; reflexivity. Qed.

(** Joining the segments with the separator gives the string back. *)
Lemma join_split sep s : sep <> "" -> Str.join sep (Str.split sep s) = s.
Proof.
  intros Hsep. unfold Str.split.
  remember (String.length s) as n eqn:Hn. revert s Hn.
  induction n as [n IH] using lt_wf_ind. intros s Hn.
  destruct s as [|c s]; [reflexivity|]. simpl Str.split_aux.
  destruct (String.prefix sep (String c s)) eqn:Hp.
  - destruct (prefix_app _ _ Hp) as [rest Hrest].
    destruct sep as [|c' sep]; [congruence|].
    simpl in Hrest. injection Hrest as Hc Hs'. subst c' s.
    replace (String.length (String c sep) - 1)%nat with (String.length sep)
      by (simpl; lia).
    rewrite split_aux_skip.
    rewrite join_cons by apply split_aux_nonempty.
    rewrite (IH (String.length rest)); [reflexivity| |reflexivity].
    subst n. simpl. rewrite string_length_app. lia.
  - assert (IHs : Str.join sep (Str.split_aux sep 0 s) = s)
      by (apply (IH (String.length s)); [subst n; simpl; lia|reflexivity]).
    destruct (Str.split_aux sep 0 s) as [|seg segs] eqn:Hs.
    + exfalso. exact (split_aux_nonempty _ _ _ Hs).
    + rewrite join_cons_char. f_equal. exact IHs.
Qed.

(** ** Running the monad *)

Section PluginFacts.

Context `{Host}.

#[local] Arguments execute_trigger : simpl never.
#[local] Arguments send_notification : simpl never.

Ltac munfold :=
  unfold mbind, M_bind, mret, M_ret, bind, ret, raise, try_except, try_with,
    emit, logger, gets, modify, call_sync, await in *.

(** membership of an event in an explicit trace, by cases *)
Ltac trace_cases :=
  repeat match goal with
    | Hx : _ \/ _ |- _ => destruct Hx
    | Hx : TextChat _ _ _ _ = TextChat _ _ _ _ |- _ =>
        injection Hx as <- <- <- <-
    | Hx : SendMessage _ _ = SendMessage _ _ |- _ => injection Hx as <- <-
    | Hx : text_chat ?p ?m ?c ?s ?w = _,
      Hy : text_chat ?p ?m ?c ?s ?w = _ |- _ => rewrite Hx in Hy
    | Hx : (_, _) = (_, _) |- _ => injection Hx as ? ?; subst
    | Hx : Returns _ = Returns _ |- _ => injection Hx as ?; subst
    | Hx : inr _ = inr _ |- _ => injection Hx as ?; subst
    | Hx : Some _ = Some _ |- _ => injection Hx as ?; subst
    end;
  try discriminate; try tauto; try congruence; auto 10.

Lemma count_app p (t1 t2 : list event) :
  count p (t1 ++ t2) = count p t1 + count p t2.
Proof. unfold count. rewrite List.filter_app, length_app. reflexivity. Qed.

Lemma count_cons p ev (t : list event) :
  count p (ev :: t) = (if p ev then 1 else 0) + count p t.
Proof. unfold count. simpl. destruct (p ev); reflexivity. Qed.

Lemma with_trigger_configs_id (p : Plugin) :
  with_trigger_configs (trigger_configs p) p = p.
Proof. destruct p; reflexivity. Qed.

Lemma set_config_id i c w p :
  trigger_configs p !! i = Some c ->
  set_config i c {| world := w; self := p |} = {| world := w; self := p |}.
Proof.
  intros Hc. unfold set_config. simpl in *.
  rewrite list_insert_id by assumption.
  rewrite with_trigger_configs_id. reflexivity.
Qed.

(** *** [_send_notification] *)

Lemma send_notification_run message level s :
  send_notification message level s
  = (Returns tt, s, [SendNotification message level; notice (self s) message]).
Proof.
  unfold send_notification, notice. munfold. simpl.
  destruct (String.eqb _ _); reflexivity.
Qed.

(** *** [_execute_trigger] *)

(** Whatever the host answers, the executor changes nothing in [self],
    returns normally unless an awaited call was cancelled, and leaves a
    trace that starts with its own marker and holds no other marker and no
    notification. *)
Lemma execute_trigger_inv i s :
  exists r w' t,
    execute_trigger i s
    = (r, {| world := w'; self := self s |}, ExecuteTrigger i :: t)
    /\ (r = Returns tt \/ r = Raises CancelledError)
    /\ (forall j, count (is_execute j) t = 0)
    /\ count is_notification t = 0
    /\ count is_failure_notification t = 0
    /\ (never_cancelled -> r = Returns tt).
Proof.
  destruct s as [w pl].
  unfold execute_trigger, config_at. munfold. simpl.
  destruct (trigger_configs pl !! i) as [c|]; simpl.
  2:{ do 3 eexists. split; [reflexivity|]. simpl. auto 10. }
  destruct (get_provider_by_id (provider c) w) as [[e|[p|]] w1]; simpl.
  1,3: do 3 eexists; (split; [reflexivity|]); simpl; auto 10.
  destruct (text_chat p (message c) [] default_system_prompt w1)
    as [[resp|[|e]] w2] eqn:Htc; simpl.
  2,3: do 3 eexists; (split; [reflexivity|]); simpl; repeat split; auto.
  2:{ intros [Hn _].
      specialize (Hn p (message c) [] default_system_prompt w1).
      rewrite Htc in Hn. simpl in Hn. congruence. }
  destruct (valid_reply resp) as [chain|]; simpl.
  2: do 3 eexists; (split; [reflexivity|]); simpl; auto 10.
  destruct (send_message (unified_msg_origin c) chain w2)
    as [[[]|[|e]] w3] eqn:Hsm; simpl.
  all: do 3 eexists; (split; [reflexivity|]); simpl; repeat split; auto.
  intros [_ Hn]. specialize (Hn (unified_msg_origin c) chain w2).
  rewrite Hsm in Hn. simpl in Hn. congruence.
Qed.

(** C8. When the registry does not know the provider name, the executor
    logs a warning and returns normally: the trace is the look-up and the
    warning, so no provider is called, nothing is delivered and no
    notification is sent. *)
Theorem unresolved_provider_is_skipped i w p c w1 :
  trigger_configs p !! i = Some c ->
  get_provider_by_id (provider c) w = (inr None, w1) ->
  exists t,
    execute_trigger i {| world := w; self := p |}
    = (Returns tt, {| world := w1; self := p |}, t)
    /\ t = [ExecuteTrigger i; GetProviderById (provider c);
            Log WARNING (ProviderNotFound (provider c))]
    /\ count is_text_chat t = 0
    /\ count is_send_message t = 0
    /\ count is_notification t = 0.
Proof.
  intros Hc Hget. eexists. split; [|split; [reflexivity|]].
  - unfold execute_trigger, config_at. munfold. simpl.
    rewrite Hc. simpl. rewrite Hget. reflexivity.
  - repeat split.
Qed.

(** C7. When the provider answers with nothing to deliver (no response
    object, a response without result chain, or a result chain that Python
    counts as false), the executor makes no delivery call, logs a warning
    and returns normally. *)
Theorem empty_reply_is_not_delivered i w p c prov w1 llm_response w2 :
  trigger_configs p !! i = Some c ->
  get_provider_by_id (provider c) w = (inr (Some prov), w1) ->
  text_chat prov (message c) [] default_system_prompt w1
  = (Returns llm_response, w2) ->
  (llm_response = None \/ llm_response = Some None
   \/ exists chain,
       llm_response = Some (Some chain) /\ chain_truth chain = false) ->
  exists t,
    execute_trigger i {| world := w; self := p |}
    = (Returns tt, {| world := w2; self := p |}, t)
    /\ t = [ExecuteTrigger i; GetProviderById (provider c);
            TextChat prov (message c) [] default_system_prompt;
            Log WARNING (NoValidReply (provider c))]
    /\ count is_send_message t = 0.
Proof.
  intros Hc Hget Hchat Hempty.
  assert (Hv : valid_reply llm_response = None).
  { destruct Hempty as [-> | [-> | (chain & -> & Hch)]]; simpl;
      [reflexivity|reflexivity|]. rewrite Hch. reflexivity. }
  eexists. split; [|split; [reflexivity|reflexivity]].
  unfold execute_trigger, config_at. munfold. simpl.
  rewrite Hc. simpl. rewrite Hget. simpl. rewrite Hchat. simpl.
  rewrite Hv. reflexivity.
Qed.

(** C9. Every provider call of the executor carries the trigger's message,
    an empty context and the fixed system prompt; every delivery goes to
    the address made of the platform, [group_message] or [private_message]
    according to the type, and the target; and a resolved provider is
    called, its non-empty answer delivered. *)
Theorem executor_call_arguments i w p c r s' t :
  trigger_configs p !! i = Some c ->
  execute_trigger i {| world := w; self := p |} = (r, s', t) ->
  (forall prov prompt context system_prompt,
      In (TextChat prov prompt context system_prompt) t ->
      prompt = message c /\ context = []
      /\ system_prompt = "你是一个有用的AI助手。")
  /\ (forall origin chain,
        In (SendMessage origin chain) t ->
        origin = platform c +:+ ":"
                 +:+ match type c with
                     | group => "group_message"
                     | private => "private_message"
                     end
                 +:+ ":" +:+ target_id c)
  /\ (forall prov w1,
        get_provider_by_id (provider c) w = (inr (Some prov), w1) ->
        In (TextChat prov (message c) [] "你是一个有用的AI助手。") t
        /\ forall chain w2,
            text_chat prov (message c) [] "你是一个有用的AI助手。" w1
            = (Returns (Some (Some chain)), w2) ->
            chain_truth chain = true ->
            In (SendMessage (unified_msg_origin c) chain) t).
Proof.
  intros Hc.
  assert (Horigin :
            unified_msg_origin c
            = platform c +:+ ":"
              +:+ match type c with
                  | group => "group_message"
                  | private => "private_message"
                  end
              +:+ ":" +:+ target_id c).
  { unfold unified_msg_origin. destruct (type c); reflexivity. }
  unfold execute_trigger, config_at. munfold. simpl. rewrite Hc. simpl.
  destruct (get_provider_by_id (provider c) w) as [[e|[prov|]] w1]; simpl.
  1,3: intros [= <- <- <-]; repeat split; intros; simpl in *; trace_cases.
  change "你是一个有用的AI助手。" with default_system_prompt.
  destruct (text_chat prov (message c) [] default_system_prompt w1)
    as [[resp|e] w2] eqn:Hchat; simpl.
  2:{ destruct e; simpl; intros [= <- <- <-]; repeat split; intros;
      simpl in *; trace_cases. }
  destruct (valid_reply resp) as [chain|] eqn:Hv; simpl.
  2:{ intros [= <- <- <-]; repeat split; intros; simpl in *; trace_cases.
      simpl in Hv.
      match goal with Hx : chain_truth _ = true |- _ => rewrite Hx in Hv end.
      discriminate. }
  assert (Hresp : resp = Some (Some chain)).
  { destruct resp as [[ch|]|]; simpl in Hv; try discriminate.
    destruct (chain_truth ch); congruence. }
  destruct (send_message (unified_msg_origin c) chain w2) as [[[]|e] w3];
    simpl; [|destruct e; simpl];
    intros [= <- <- <-]; repeat split; intros; simpl in *; trace_cases.
Qed.

(** *** One entry of a scan *)

Lemma check_trigger_not_due current_time i w p c :
  trigger_configs p !! i = Some c ->
  (current_time < next_run c)%Z ->
  check_trigger current_time i {| world := w; self := p |}
  = (Returns tt, {| world := w; self := p |}, []).
Proof.
  intros Hc Hlt. unfold check_trigger, config_at. munfold. simpl.
  rewrite Hc. destruct (Z.leb_spec (next_run c) current_time); [lia|].
  reflexivity.
Qed.

Lemma check_trigger_cancelled current_time i w p c w1 t1 :
  trigger_configs p !! i = Some c ->
  (next_run c <= current_time)%Z ->
  execute_trigger i {| world := w; self := p |}
  = (Raises CancelledError, {| world := w1; self := p |}, t1) ->
  check_trigger current_time i {| world := w; self := p |}
  = (Raises CancelledError, {| world := w1; self := p |},
     Log INFO (Executing (platform c) (target_id c) (cron_expression c))
     :: t1).
Proof.
  intros Hc Hdue Hex.
  unfold check_trigger, update_config, config_at, croniter, get_next.
  munfold. simpl. rewrite Hc.
  destruct (Z.leb_spec (next_run c) current_time); [|lia]. simpl.
  rewrite Hex. simpl. rewrite !app_nil_r. reflexivity.
Qed.

(** The success path: it runs whenever the executor has returned. *)
Lemma check_trigger_fired current_time i w p c w1 t1 it next_time it' :
  trigger_configs p !! i = Some c ->
  (next_run c <= current_time)%Z ->
  execute_trigger i {| world := w; self := p |}
  = (Returns tt, {| world := w1; self := p |}, t1) ->
  croniter_new (cron_expression c) current_time = inr it ->
  croniter_get_next it = inr (next_time, it') ->
  check_trigger current_time i {| world := w; self := p |}
  = (Returns tt,
     set_config i (fired current_time it' next_time c)
       {| world := w1; self := p |},
     Log INFO (Executing (platform c) (target_id c) (cron_expression c))
     :: t1 ++ Log INFO (Executed next_time)
     :: (if notification_on_success p
         then [SendNotification (success_message c) "success";
               notice p (success_message c)]
         else [])).
Proof.
  intros Hc Hdue Hex Hnew Hnext.
  assert (Hlt : i < length (trigger_configs p))
    by (eapply lookup_lt_Some; eauto).
  unfold check_trigger, update_config, config_at, croniter, get_next.
  munfold. simpl. rewrite Hc.
  destruct (Z.leb_spec (next_run c) current_time); [|lia]. simpl.
  rewrite Hex. simpl. rewrite Hc. simpl. rewrite Hnew. simpl.
  rewrite list_lookup_insert_eq by assumption. simpl.
  rewrite Hnext. simpl.
  rewrite list_insert_insert_eq, list_lookup_insert_eq by assumption. simpl.
  rewrite list_insert_insert_eq, list_lookup_insert_eq by assumption. simpl.
  rewrite list_insert_insert_eq.
  destruct (notification_on_success p); simpl.
  - rewrite send_notification_run. simpl. rewrite ?app_nil_r. reflexivity.
  - rewrite ?app_nil_r. reflexivity.
Qed.

(** The failure path: reached when croniter rejects the expression ... *)
Lemma check_trigger_bad_cron current_time i w p c w1 t1 e :
  trigger_configs p !! i = Some c ->
  (next_run c <= current_time)%Z ->
  execute_trigger i {| world := w; self := p |}
  = (Returns tt, {| world := w1; self := p |}, t1) ->
  croniter_new (cron_expression c) current_time = inl e ->
  check_trigger current_time i {| world := w; self := p |}
  = (Returns tt,
     set_config i (with_last_run (Some current_time) c)
       {| world := w1; self := p |},
     Log INFO (Executing (platform c) (target_id c) (cron_expression c))
     :: t1 ++ Log ERROR (TaskFailed e)
     :: (if notification_on_failure p
         then [SendNotification (failure_message e) "error";
               notice p (failure_message e)]
         else [])).
Proof.
  intros Hc Hdue Hex Hnew.
  unfold check_trigger, update_config, config_at, croniter, get_next.
  munfold. simpl. rewrite Hc.
  destruct (Z.leb_spec (next_run c) current_time); [|lia]. simpl.
  rewrite Hex. simpl. rewrite Hc. simpl. rewrite Hnew. simpl.
  destruct (notification_on_failure p); simpl.
  - rewrite send_notification_run. simpl. rewrite ?app_nil_r. reflexivity.
  - rewrite ?app_nil_r. reflexivity.
Qed.

(** ... or finds no next fire time. *)
Lemma check_trigger_no_next current_time i w p c w1 t1 it e :
  trigger_configs p !! i = Some c ->
  (next_run c <= current_time)%Z ->
  execute_trigger i {| world := w; self := p |}
  = (Returns tt, {| world := w1; self := p |}, t1) ->
  croniter_new (cron_expression c) current_time = inr it ->
  croniter_get_next it = inl e ->
  check_trigger current_time i {| world := w; self := p |}
  = (Returns tt,
     set_config i (with_cron it (with_last_run (Some current_time) c))
       {| world := w1; self := p |},
     Log INFO (Executing (platform c) (target_id c) (cron_expression c))
     :: t1 ++ Log ERROR (TaskFailed e)
     :: (if notification_on_failure p
         then [SendNotification (failure_message e) "error";
               notice p (failure_message e)]
         else [])).
Proof.
  intros Hc Hdue Hex Hnew Hnext.
  assert (Hlt : i < length (trigger_configs p))
    by (eapply lookup_lt_Some; eauto).
  unfold check_trigger, update_config, config_at, croniter, get_next.
  munfold. simpl. rewrite Hc.
  destruct (Z.leb_spec (next_run c) current_time); [|lia]. simpl.
  rewrite Hex. simpl. rewrite Hc. simpl. rewrite Hnew. simpl.
  rewrite list_lookup_insert_eq by assumption. simpl.
  rewrite Hnext. simpl. rewrite list_insert_insert_eq.
  destruct (notification_on_failure p); simpl.
  - rewrite send_notification_run. simpl. rewrite ?app_nil_r. reflexivity.
  - rewrite ?app_nil_r. reflexivity.
Qed.

(** Summary of the four cases. *)
Lemma check_trigger_spec current_time i w p c :
  trigger_configs p !! i = Some c ->
  exists r w' c' t,
    check_trigger current_time i {| world := w; self := p |}
    = (r, set_config i c' {| world := w'; self := p |}, t)
    /\ (r = Returns tt \/ r = Raises CancelledError)
    /\ (never_cancelled -> r = Returns tt)
    /\ (forall j,
          count (is_execute j) t
          = if (next_run c <=? current_time)%Z && Nat.eqb i j then 1 else 0)
    /\ (croniter_ok current_time c -> count is_failure_notification t = 0)
    /\ (r = Returns tt ->
        if (next_run c <=? current_time)%Z then
          forall it next_time it',
            croniter_new (cron_expression c) current_time = inr it ->
            croniter_get_next it = inr (next_time, it') ->
            c' = fired current_time it' next_time c
            /\ (notification_on_success p = true ->
                In (SendNotification (success_message c) "success") t)
        else c' = c).
Proof.
  intros Hc.
  destruct (Z.leb_spec (next_run c) current_time) as [Hdue|Hnot]; simpl.
  2:{ exists (Returns tt), w, c, [].
      rewrite set_config_id by exact Hc.
      rewrite (check_trigger_not_due _ _ _ _ _ Hc Hnot). auto 10. }
  destruct (execute_trigger_inv i {| world := w; self := p |})
    as (r1 & w1 & t1 & Hex & Hr & Hcnt & _ & Hfail & Hnc).
  simpl in Hex.
  assert (Hexec : forall j ev tail,
             is_execute j ev = false -> count (is_execute j) tail = 0 ->
             count (is_execute j)
               (Log INFO (Executing (platform c) (target_id c)
                            (cron_expression c))
                :: (ExecuteTrigger i :: t1) ++ ev :: tail)
             = if Nat.eqb i j then 1 else 0).
  { intros j ev tail Hev Htail.
    rewrite count_cons, count_app, !count_cons, Hcnt, Hev, Htail. simpl.
    destruct (Nat.eqb i j); reflexivity. }
  destruct Hr as [-> | ->].
  2:{ exists (Raises CancelledError), w1, c,
        (Log INFO (Executing (platform c) (target_id c) (cron_expression c))
         :: ExecuteTrigger i :: t1).
      rewrite set_config_id by exact Hc.
      rewrite (check_trigger_cancelled _ _ _ _ _ _ _ Hc Hdue Hex).
      split; [reflexivity|]. split; [auto|]. split; [exact Hnc|].
      split; [|split; [|discriminate]].
      - intros j. rewrite !count_cons, Hcnt. simpl.
        destruct (Nat.eqb i j); reflexivity.
      - intros _. rewrite !count_cons, Hfail. reflexivity. }
  destruct (croniter_new (cron_expression c) current_time) as [e|it] eqn:Hnew.
  { eexists (Returns tt), w1, _, _.
    rewrite (check_trigger_bad_cron _ _ _ _ _ _ _ _ Hc Hdue Hex Hnew).
    split; [reflexivity|]. split; [auto|]. split; [auto|].
    split; [|split].
    - intros j. apply Hexec; [reflexivity|].
      destruct (notification_on_failure p); reflexivity.
    - intros (it & nt & it' & Hn & _). congruence.
    - intros _ it nt it' Hn. congruence. }
  destruct (croniter_get_next it) as [e|[next_time it']] eqn:Hnext.
  { eexists (Returns tt), w1, _, _.
    rewrite (check_trigger_no_next _ _ _ _ _ _ _ _ _ Hc Hdue Hex Hnew Hnext).
    split; [reflexivity|]. split; [auto|]. split; [auto|].
    split; [|split].
    - intros j. apply Hexec; [reflexivity|].
      destruct (notification_on_failure p); reflexivity.
    - intros (it0 & nt & it' & Hn & Hg). congruence.
    - intros _ it0 nt it' Hn Hg. congruence. }
  eexists (Returns tt), w1, _, _.
  rewrite (check_trigger_fired _ _ _ _ _ _ _ _ _ _
             Hc Hdue Hex Hnew Hnext).
  split; [reflexivity|]. split; [auto|]. split; [auto|].
  split; [|split].
  - intros j. apply Hexec; [reflexivity|].
    destruct (notification_on_success p); reflexivity.
  - intros _. rewrite count_cons, count_app, !count_cons, Hfail.
    destruct (notification_on_success p); reflexivity.
  - intros _ it0 nt it0' Hn Hg.
    assert (it0 = it) by congruence. subst it0.
    assert (nt = next_time /\ it0' = it') as [-> ->]
      by (split; congruence).
    split; [reflexivity|].
    intros ->. right. apply in_or_app. right. right. left. reflexivity.
Qed.

(** *** The loop over the entries *)

Lemma for_each_cons {A} (x : A) l body s :
  for_each (x :: l) body s =
  match body x s with
  | (Returns _, s1, t1) =>
      match for_each l body s1 with
      | (r, s2, t2) => (r, s2, t1 ++ t2)
      end
  | (Raises e, s1, t1) => (Raises e, s1, t1)
  end.
Proof. reflexivity. Qed.

(** The entries at positions [a .. a+n-1], visited from a state with plugin
    [p]: every other position is left alone, a cancellation is the only way
    out, and after a completed pass every visited entry is [entry_done]. *)
Lemma scan_range current_time n :
  forall a w p,
    a + n <= length (trigger_configs p) ->
    exists r w' cfgs t,
      for_each (seq a n) (check_trigger current_time)
        {| world := w; self := p |}
      = (r, {| world := w'; self := with_trigger_configs cfgs p |}, t)
      /\ length cfgs = length (trigger_configs p)
      /\ (forall j, j < a \/ a + n <= j ->
            cfgs !! j = trigger_configs p !! j
            /\ count (is_execute j) t = 0)
      /\ (r = Returns tt \/ r = Raises CancelledError)
      /\ (never_cancelled -> r = Returns tt)
      /\ ((forall j c, a <= j < a + n -> trigger_configs p !! j = Some c ->
             croniter_ok current_time c) ->
          count is_failure_notification t = 0)
      /\ (r = Returns tt ->
          forall j c, a <= j < a + n -> trigger_configs p !! j = Some c ->
            entry_done current_time p c j (with_trigger_configs cfgs p) t).
Proof.
  induction n as [|n IH]; intros a w p Hlen.
  { exists (Returns tt), w, (trigger_configs p), [].
    rewrite with_trigger_configs_id. simpl.
    split; [reflexivity|]. split; [reflexivity|].
    split; [auto|]. split; [auto|]. split; [auto|]. split; [auto|].
    intros _ j c Hj. lia. }
  destruct (lookup_lt_is_Some_2 (trigger_configs p) a) as [c Hc]; [lia|].
  destruct (check_trigger_spec current_time a w p c Hc)
    as (r1 & w1 & c1 & t1 & Hrun & Hr1 & Hnc1 & Hcnt1 & Hfail1 & Hdone1).
  simpl seq. rewrite for_each_cons, Hrun.
  destruct Hr1 as [-> | ->].
  2:{ exists (Raises CancelledError), w1, (<[a := c1]> (trigger_configs p)), t1.
      split; [reflexivity|]. split; [apply length_insert|].
      split; [|split; [auto|split; [exact Hnc1|split; [|discriminate]]]].
      - intros j Hj. split; [apply list_lookup_insert_ne; lia|].
        rewrite Hcnt1. destruct (Nat.eqb_spec a j); [lia|].
        rewrite andb_false_r. reflexivity.
      - intros Hok. apply Hfail1, (Hok a c); [lia|exact Hc]. }
  unfold set_config. simpl world. simpl self.
  destruct (IH (S a) w1
              (with_trigger_configs (<[a := c1]> (trigger_configs p)) p))
    as (r2 & w2 & cfgs & t2 & Hrest & Hlen2 & Hframe & Hr2 & Hnc2 & Hfail2
        & Hdone2).
  { simpl. rewrite length_insert. lia. }
  simpl in Hrest, Hlen2, Hframe, Hfail2, Hdone2.
  rewrite length_insert in Hlen2. rewrite Hrest.
  exists r2, w2, cfgs, (t1 ++ t2).
  split; [reflexivity|]. split; [exact Hlen2|].
  split; [|split; [exact Hr2|split; [exact Hnc2|split]]].
  - intros j Hj. destruct (Hframe j) as [Hl Hc2]; [lia|].
    rewrite Hl, list_lookup_insert_ne by lia. split; [reflexivity|].
    rewrite count_app, Hc2, Hcnt1. destruct (Nat.eqb_spec a j); [lia|].
    rewrite andb_false_r. reflexivity.
  - intros Hok. rewrite count_app, Hfail1, Hfail2; [reflexivity| |].
    + intros j c' Hj Hj'. rewrite list_lookup_insert_ne in Hj' by lia.
      apply (Hok j c'); [lia|exact Hj'].
    + apply (Hok a c); [lia|exact Hc].
  - intros -> j c' Hj Hj'.
    destruct (Nat.eq_dec j a) as [->|Hne].
    + assert (c' = c) by congruence. subst c'.
      destruct (Hframe a) as [Hl Hc2]; [lia|].
      rewrite list_lookup_insert_eq in Hl
        by (eapply lookup_lt_Some; exact Hc).
      specialize (Hdone1 eq_refl). specialize (Hcnt1 a).
      rewrite Nat.eqb_refl, andb_true_r in Hcnt1.
      unfold entry_done. simpl trigger_configs.
      destruct (next_run c <=? current_time)%Z.
      * split; [rewrite count_app, Hcnt1, Hc2; reflexivity|].
        intros it nt it' Hn Hg.
        destruct (Hdone1 it nt it' Hn Hg) as [-> Hnote].
        split; [exact Hl|].
        intros Hon. apply in_or_app. left. exact (Hnote Hon).
      * subst c1. split; [rewrite count_app, Hcnt1, Hc2; reflexivity|].
        exact Hl.
    + rewrite <- (list_lookup_insert_ne (trigger_configs p) a j c1) in Hj'
        by lia.
      specialize (Hdone2 eq_refl j c' ltac:(lia) Hj').
      specialize (Hcnt1 j).
      destruct (Nat.eqb_spec a j) as [|_]; [lia|].
      rewrite andb_false_r in Hcnt1.
      unfold entry_done in *. simpl trigger_configs in *.
      destruct (next_run c' <=? current_time)%Z.
      * destruct Hdone2 as [Hone Hupd].
        split; [rewrite count_app, Hcnt1, Hone; reflexivity|].
        intros it nt it' Hn Hg.
        destruct (Hupd it nt it' Hn Hg) as [Hl Hnote].
        split; [exact Hl|].
        intros Hon. apply in_or_app. right. exact (Hnote Hon).
      * destruct Hdone2 as [Hzero Hl].
        split; [rewrite count_app, Hcnt1, Hzero; reflexivity|exact Hl].
Qed.

(** *** [_check_and_execute_triggers] *)

Lemma scan_spec w p current_time w0 :
  datetime_now w = (current_time, w0) ->
  exists r w' cfgs t,
    check_and_execute_triggers {| world := w; self := p |}
    = (r, {| world := w'; self := with_trigger_configs cfgs p |}, t)
    /\ length cfgs = length (trigger_configs p)
    /\ (r = Returns tt \/ r = Raises CancelledError)
    /\ (never_cancelled -> r = Returns tt)
    /\ ((forall j c, trigger_configs p !! j = Some c ->
           croniter_ok current_time c) ->
        count is_failure_notification t = 0)
    /\ (r = Returns tt ->
        forall j c, trigger_configs p !! j = Some c ->
          entry_done current_time p c j (with_trigger_configs cfgs p) t).
Proof.
  intros Hnow.
  destruct (scan_range current_time (length (trigger_configs p)) 0 w0 p)
    as (r & w' & cfgs & t & Hrun & Hlen & _ & Hr & Hnc & Hfail & Hdone);
    [lia|].
  exists r, w', cfgs, t.
  split.
  { unfold check_and_execute_triggers, now. munfold. simpl.
    rewrite Hnow. simpl. rewrite Hrun. reflexivity. }
  split; [exact Hlen|]. split; [exact Hr|]. split; [exact Hnc|]. split.
  - intros Hok. apply Hfail. intros j c _. apply Hok.
  - intros Hret j c Hc. apply (Hdone Hret); [|exact Hc].
    apply lookup_lt_Some in Hc. lia.
Qed.

(** Failures stay within their entry: with no cancellation the scan
    returns normally and has executed every due entry once, whatever the
    host did for the other entries. *)
Lemma scan_isolates_failures w p current_time w0 :
  never_cancelled ->
  datetime_now w = (current_time, w0) ->
  exists s' t,
    check_and_execute_triggers {| world := w; self := p |}
    = (Returns tt, s', t)
    /\ forall j c, trigger_configs p !! j = Some c ->
         count (is_execute j) t
         = if (next_run c <=? current_time)%Z then 1 else 0.
Proof.
  intros Hnc Hnow.
  destruct (scan_spec w p current_time w0 Hnow)
    as (r & w' & cfgs & t & Hrun & _ & _ & Hret & _ & Hdone).
  specialize (Hret Hnc). subst r. do 2 eexists. split; [exact Hrun|].
  intros j c Hc. specialize (Hdone eq_refl j c Hc). unfold entry_done in Hdone.
  destruct (next_run c <=? current_time)%Z; tauto.
Qed.

(** As long as croniter answers, no scan sends a failure notification,
    whatever the providers and the delivery do. *)
Lemma scan_sends_no_failure_notification w p current_time w0 r s' t :
  datetime_now w = (current_time, w0) ->
  (forall j c, trigger_configs p !! j = Some c -> croniter_ok current_time c) ->
  check_and_execute_triggers {| world := w; self := p |} = (r, s', t) ->
  count is_failure_notification t = 0.
Proof.
  intros Hnow Hok Hrun.
  destruct (scan_spec w p current_time w0 Hnow)
    as (r' & w' & cfgs & t' & Hrun' & _ & _ & _ & Hfail & _).
  rewrite Hrun in Hrun'. injection Hrun' as _ _ ->. exact (Hfail Hok).
Qed.

(** C2. A trigger that is due when a scan starts ([next_run] at or before
    the instant [current_time] the scan reads from the clock) is executed
    exactly once by that scan; afterwards its [last_run] is [current_time]
    and its [next_run] is what croniter answers for its expression from
    [current_time] (the reference is the instant of the scan, not the
    [next_run] that had expired), which lies strictly after
    [current_time] since croniter's answers lie after their reference. *)
Theorem due_trigger_fires_once w p current_time w0 i c it next_time it' :
  never_cancelled ->
  (forall expr_format start it0 t it1,
      croniter_new expr_format start = inr it0 ->
      croniter_get_next it0 = inr (t, it1) -> (start < t)%Z) ->
  datetime_now w = (current_time, w0) ->
  trigger_configs p !! i = Some c ->
  (next_run c <= current_time)%Z ->
  croniter_new (cron_expression c) current_time = inr it ->
  croniter_get_next it = inr (next_time, it') ->
  exists w' p' t c',
    check_and_execute_triggers {| world := w; self := p |}
    = (Returns tt, {| world := w'; self := p' |}, t)
    /\ count (is_execute i) t = 1
    /\ trigger_configs p' !! i = Some c'
    /\ last_run c' = Some current_time
    /\ next_run c' = next_time
    /\ cron c' = it'
    /\ (current_time < next_run c')%Z.
Proof.
  intros Hnc Hstrict Hnow Hc Hdue Hnew Hnext.
  destruct (scan_spec w p current_time w0 Hnow)
    as (r & w' & cfgs & t & Hrun & _ & _ & Hret & _ & Hdone).
  specialize (Hret Hnc). subst r.
  specialize (Hdone eq_refl i c Hc). unfold entry_done in Hdone.
  destruct (Z.leb_spec (next_run c) current_time); [|lia].
  destruct Hdone as [Hone Hupd].
  destruct (Hupd it next_time it' Hnew Hnext) as [Hl _].
  exists w', (with_trigger_configs cfgs p), t,
    (fired current_time it' next_time c).
  split; [exact Hrun|]. split; [exact Hone|]. split; [exact Hl|].
  simpl. repeat split. eapply Hstrict; eassumption.
Qed.

(** C10. The executor returns normally from every state, whatever the
    provider or the delivery did, so a scan that fires a due trigger always
    goes on to the success path: [last_run] and [next_run] are updated and,
    when [notification_on_success] is set, the success notification for the
    trigger is sent.  Nothing is assumed about the outcome of the provider
    call or of the delivery beyond their not being cancelled: they may have
    raised. *)
Theorem success_path_runs_unconditionally
    w p current_time w0 i c it next_time it' :
  never_cancelled ->
  datetime_now w = (current_time, w0) ->
  trigger_configs p !! i = Some c ->
  (next_run c <= current_time)%Z ->
  croniter_new (cron_expression c) current_time = inr it ->
  croniter_get_next it = inr (next_time, it') ->
  (forall j s, (execute_trigger j s).1.1 = Returns tt)
  /\ exists w' p' t c',
      check_and_execute_triggers {| world := w; self := p |}
      = (Returns tt, {| world := w'; self := p' |}, t)
      /\ trigger_configs p' !! i = Some c'
      /\ last_run c' = Some current_time
      /\ next_run c' = next_time
      /\ (notification_on_success p = true ->
          In (SendNotification (success_message c) "success") t).
Proof.
  intros Hnc Hnow Hc Hdue Hnew Hnext. split.
  { intros j s.
    destruct (execute_trigger_inv j s) as (r & w' & t & -> & _ & _ & _ & _ & Hr).
    simpl. exact (Hr Hnc). }
  destruct (scan_spec w p current_time w0 Hnow)
    as (r & w' & cfgs & t & Hrun & _ & _ & Hret & _ & Hdone).
  specialize (Hret Hnc). subst r.
  specialize (Hdone eq_refl i c Hc). unfold entry_done in Hdone.
  destruct (Z.leb_spec (next_run c) current_time); [|lia].
  destruct Hdone as [_ Hupd].
  destruct (Hupd it next_time it' Hnew Hnext) as [Hl Hnote].
  exists w', (with_trigger_configs cfgs p), t,
    (fired current_time it' next_time c).
  split; [exact Hrun|]. split; [exact Hl|]. simpl. auto.
Qed.

(** *** [_scheduler_loop] *)

(** A round ends by going round again, by [break], or with what the sleep in
    the handler raised, the error of the round logged just before; it goes
    round again when every sleep elapses and the scan is not cancelled. *)
Lemma loop_round_cases scan s :
  exists r s' t,
    loop_round scan s = (r, s', t)
    /\ (r = Returns true \/ r = Returns false
        \/ exists e msg t0 w,
            r = Raises e
            /\ t = t0 ++ [Log ERROR (LoopError msg);
                          Sleep (scheduler_check_interval (self s'))]
            /\ asyncio_sleep (scheduler_check_interval (self s')) w
               = (Raises e, world s'))
    /\ ((forall delay w, (asyncio_sleep delay w).1 = Returns tt) ->
        (forall s0, (scan s0).1.1 <> Raises CancelledError) ->
        r = Returns true).
Proof.
  destruct s as [w p].
  unfold loop_round, sleep. munfold. simpl.
  destruct (asyncio_sleep (scheduler_check_interval p) w)
    as [[[]|[|msg1]] w1] eqn:Hs1; simpl.
  2:{ do 3 eexists. split; [reflexivity|]. split; [auto|].
      intros Hs _. specialize (Hs (scheduler_check_interval p) w).
      rewrite Hs1 in Hs. discriminate. }
  2:{ destruct (asyncio_sleep (scheduler_check_interval p) w1)
        as [[[]|e] w3] eqn:Hs3; simpl.
      - do 3 eexists. split; [reflexivity|]. split; [auto|].
        intros Hs _. specialize (Hs (scheduler_check_interval p) w).
        rewrite Hs1 in Hs. discriminate.
      - do 3 eexists. split; [reflexivity|]. split.
        + right. right.
          exists e, msg1, [Sleep (scheduler_check_interval p)], w1.
          simpl. auto.
        + intros Hs _. specialize (Hs (scheduler_check_interval p) w).
          rewrite Hs1 in Hs. discriminate. }
  destruct (scan {| world := w1; self := p |}) as [[[[]|[|msg]] s2] t2] eqn:Hscan;
    simpl.
  - do 3 eexists. split; [reflexivity|]. auto.
  - do 3 eexists. split; [reflexivity|]. split; [auto|].
    intros _ Hc. specialize (Hc {| world := w1; self := p |}).
    rewrite Hscan in Hc. simpl in Hc. congruence.
  - destruct (asyncio_sleep (scheduler_check_interval (self s2)) (world s2))
      as [[[]|e] w3] eqn:Hs3; simpl.
    + do 3 eexists. split; [reflexivity|]. auto.
    + do 3 eexists. split; [reflexivity|]. split.
      * right. right.
        exists e, msg, (Sleep (scheduler_check_interval p) :: t2), (world s2).
        simpl. rewrite ?app_nil_r. auto.
      * intros Hs _.
        specialize (Hs (scheduler_check_interval (self s2)) (world s2)).
        rewrite Hs3 in Hs. discriminate.
Qed.

Lemma loop_step scan fuel s :
  scheduler_loop_with scan (S fuel) s =
  match loop_round scan s with
  | (Returns true, s1, t1) =>
      match scheduler_loop_with scan fuel s1 with
      | (r, s2, t2) => (r, s2, t1 ++ t2)
      end
  | (Returns false, s1, t1) => (Returns Stopped, s1, t1 ++ [])
  | (Raises e, s1, t1) => (Raises e, s1, t1)
  end.
Proof.
  simpl. munfold.
  destruct (loop_round scan s) as [[[[|]|e] s1] t1]; reflexivity.
Qed.

(** Whatever ends the loop with an exception was raised by the sleep in the
    handler, the last call of the run, after the log of the error that the
    round had caught. *)
Lemma loop_fails_in_the_handler scan fuel :
  forall s e s' t,
    scheduler_loop_with scan fuel s = (Raises e, s', t) ->
    exists msg t0 w,
      t = t0 ++ [Log ERROR (LoopError msg);
                 Sleep (scheduler_check_interval (self s'))]
      /\ asyncio_sleep (scheduler_check_interval (self s')) w
         = (Raises e, world s').
Proof.
  induction fuel as [|fuel IH]; intros s e s' t; [discriminate|].
  rewrite loop_step.
  destruct (loop_round_cases scan s) as (r & s1 & t1 & -> & Hr & _).
  destruct Hr as [-> | [-> | (e1 & msg & t0 & w & -> & -> & Hs)]].
  - destruct (scheduler_loop_with scan fuel s1) as [[r2 s2] t2] eqn:Hrest.
    intros [= -> -> <-].
    destruct (IH _ _ _ _ Hrest) as (msg & t0 & w & -> & Hs).
    exists msg, (t1 ++ t0), w. rewrite <- app_assoc. auto.
  - discriminate.
  - intros [= -> -> <-]. exists msg, t0, w. auto.
Qed.

(** As long as the sleep raises no exception of its own, no exception other
    than a cancellation leaves the loop. *)
Lemma loop_never_fails scan fuel :
  (forall delay w msg, (asyncio_sleep delay w).1 <> Raises (Exception msg)) ->
  forall s msg, (scheduler_loop_with scan fuel s).1.1 <> Raises (Exception msg).
Proof.
  intros Hsleep s msg.
  destruct (scheduler_loop_with scan fuel s) as [[[r|e] s'] t] eqn:Hrun;
    [discriminate|].
  destruct (loop_fails_in_the_handler _ _ _ _ _ _ Hrun) as (_ & _ & w & _ & Hs).
  simpl. intros [= ->].
  apply (Hsleep (scheduler_check_interval (self s')) w msg).
  rewrite Hs. reflexivity.
Qed.

(** When every sleep elapses and the scan is not cancelled, the loop is
    still going after any number of rounds. *)
Lemma loop_keeps_going scan fuel :
  (forall delay w, (asyncio_sleep delay w).1 = Returns tt) ->
  (forall s0, (scan s0).1.1 <> Raises CancelledError) ->
  forall s, (scheduler_loop_with scan fuel s).1.1 = Returns Looping.
Proof.
  intros Hsleep Hscan.
  induction fuel as [|fuel IH]; intros s; [reflexivity|].
  rewrite loop_step.
  destruct (loop_round_cases scan s) as (r & s1 & t1 & -> & _ & Hr).
  rewrite (Hr Hsleep Hscan). specialize (IH s1).
  destruct (scheduler_loop_with scan fuel s1) as [[r2 s2] t2]. exact IH.
Qed.


(** A sleep that raises in the [try] is caught like any other error of the
    round; when the sleep of the handler raises as well, the loop ends with
    what it raised. *)
Lemma loop_dies_in_the_handler scan fuel s msg w1 e w3 :
  asyncio_sleep (scheduler_check_interval (self s)) (world s)
  = (Raises (Exception msg), w1) ->
  asyncio_sleep (scheduler_check_interval (self s)) w1 = (Raises e, w3) ->
  scheduler_loop_with scan (S fuel) s
  = (Raises e, {| world := w3; self := self s |},
     [Sleep (scheduler_check_interval (self s));
      Log ERROR (LoopError msg);
      Sleep (scheduler_check_interval (self s))]).
Proof.
  intros Hs1 Hs3. rewrite loop_step.
  unfold loop_round, sleep. munfold. simpl.
  rewrite Hs1. simpl. rewrite Hs3. reflexivity.
Qed.

(** The plugin's own loop never stops as long as every sleep elapses and no
    call of the host is cancelled. *)
Lemma scheduler_loop_keeps_going fuel s :
  never_cancelled ->
  (forall delay w, (asyncio_sleep delay w).1 = Returns tt) ->
  (scheduler_loop fuel s).1.1 = Returns Looping.
Proof.
  intros Hnc Hsleep. apply loop_keeps_going; [exact Hsleep|].
  intros [w p]. destruct (datetime_now w) as [current_time w0] eqn:Hnow.
  destruct (scan_spec w p current_time w0 Hnow)
    as (r & w' & cfgs & t & -> & _ & _ & Hret & _).
  simpl. rewrite (Hret Hnc). discriminate.
Qed.

(** *** [_parse_configs] *)

Lemma for_each_app {A} (l1 l2 : list A) body s :
  for_each (l1 ++ l2) body s =
  match for_each l1 body s with
  | (Returns _, s1, t1) =>
      match for_each l2 body s1 with
      | (r, s2, t2) => (r, s2, t1 ++ t2)
      end
  | (Raises e, s1, t1) => (Raises e, s1, t1)
  end.
Proof.
  revert s; induction l1 as [|x l1 IH]; intros s.
  - simpl. unfold ret. destruct (for_each l2 body s) as [[r s2] t2].
    reflexivity.
  - rewrite <- app_comm_cons, !for_each_cons.
    destruct (body x s) as [[[[]|e] s1] t1]; [|reflexivity].
    rewrite IH.
    destruct (for_each l1 body s1) as [[[[]|e] s2] t2]; [|reflexivity].
    destruct (for_each l2 body s2) as [[r s3] t3].
    rewrite app_assoc. reflexivity.
Qed.

(** A string with too few segments leaves the state alone and logs a
    warning. *)
Lemma parse_config_bad_format ty config_str s :
  length (Str.split "::" config_str) < 5 ->
  parse_config ty config_str s
  = (Returns tt, s, [Log WARNING (BadFormat ty config_str)]).
Proof.
  intros Hlen. unfold parse_config. munfold.
  destruct (Nat.leb_spec 5 (length (Str.split "::" config_str))); [lia|].
  reflexivity.
Qed.

(** Parsing one string never raises. *)
Lemma parse_config_returns ty config_str s :
  exists s' t, parse_config ty config_str s = (Returns tt, s', t).
Proof.
  unfold parse_config, now, croniter, get_next. munfold.
  destruct (5 <=? length (Str.split "::" config_str))%nat;
    [|do 2 eexists; reflexivity].
  simpl. destruct (datetime_now (world s)) as [t0 w0]. simpl.
  destruct (croniter_new _ t0) as [e|it]; simpl;
    [do 2 eexists; reflexivity|].
  destruct (croniter_get_next it) as [e|[next_time it']]; simpl;
    [do 2 eexists; reflexivity|].
  destruct (datetime_now w0) as [t1 w1]. simpl.
  destruct (croniter_new _ t1) as [e|fresh]; simpl;
    do 2 eexists; reflexivity.
Qed.

Lemma parse_batch_returns ty l s :
  exists s' t, for_each l (parse_config ty) s = (Returns tt, s', t).
Proof.
  revert s; induction l as [|x l IH]; intros s.
  - do 2 eexists. reflexivity.
  - rewrite for_each_cons.
    destruct (parse_config_returns ty x s) as (s1 & t1 & ->).
    destruct (IH s1) as (s2 & t2 & ->). do 2 eexists. reflexivity.
Qed.

(** C5. A string with fewer than five segments adds no entry: it leaves
    the state as it was and logs a warning.  Taking it out of a list
    changes neither the entries the loop produces nor the rest of its
    trace, so the other strings are parsed as if it were not there. *)
Theorem malformed_string_is_skipped ty bad :
  length (Str.split "::" bad) < 5 ->
  (forall s,
      parse_config ty bad s = (Returns tt, s, [Log WARNING (BadFormat ty bad)]))
  /\ forall before after s,
      exists s' t1 t2,
        for_each (before ++ after) (parse_config ty) s
        = (Returns tt, s', t1 ++ t2)
        /\ for_each (before ++ bad :: after) (parse_config ty) s
           = (Returns tt, s', t1 ++ Log WARNING (BadFormat ty bad) :: t2).
Proof.
  intros Hlen. split; [intros s; apply parse_config_bad_format, Hlen|].
  intros before after s.
  destruct (parse_batch_returns ty before s) as (s1 & t1 & H1).
  destruct (parse_batch_returns ty after s1) as (s2 & t2 & H2).
  exists s2, t1, t2.
  rewrite !for_each_app, H1, for_each_cons, H2.
  rewrite (parse_config_bad_format _ _ _ Hlen), H2. auto.
Qed.

(** C4. In a string of five segments or more the first four are the
    platform, the target, the provider and the cron expression, and the
    message is the rest joined again with ["::"]: it is what follows the
    fourth separator.  When croniter accepts the expression, the entry with
    these fields is appended.  For the string of the specification the
    fields are [p1], [g1], [provA], [*/5 * * * *] and [hello::world]. *)
Theorem parse_config_fields
    ty config_str w p a b c d m rest t0 w0 it next_time it0 t1 w1 fresh :
  Str.split "::" config_str = a :: b :: c :: d :: m :: rest ->
  datetime_now w = (t0, w0) ->
  croniter_new d t0 = inr it ->
  croniter_get_next it = inr (next_time, it0) ->
  datetime_now w0 = (t1, w1) ->
  croniter_new d t1 = inr fresh ->
  parse_config ty config_str {| world := w; self := p |}
  = (Returns tt,
     {| world := w1;
        self :=
          with_trigger_configs
            (trigger_configs p ++
             [{| type := ty; platform := a; target_id := b; provider := c;
                 cron_expression := d; cron := fresh; next_run := next_time;
                 last_run := None; message := Str.join "::" (m :: rest) |}])
            p |},
     [Log INFO (TriggerAdded ty a b d next_time)])
  /\ config_str
     = a +:+ "::" +:+ b +:+ "::" +:+ c +:+ "::" +:+ d +:+ "::"
       +:+ Str.join "::" (m :: rest)
  /\ (config_str = "p1::g1::provA::*/5 * * * *::hello::world" ->
      a = "p1" /\ b = "g1" /\ c = "provA" /\ d = "*/5 * * * *"
      /\ Str.join "::" (m :: rest) = "hello::world").
Proof.
  intros Hsplit Hnow0 Hnew Hnext Hnow1 Hfresh. split; [|split].
  - unfold parse_config, now, croniter, get_next. munfold.
    rewrite Hsplit. simpl.
    rewrite Hnow0. simpl. rewrite Hnew. simpl. rewrite Hnext. simpl.
    rewrite Hnow1. simpl. rewrite Hfresh. simpl. reflexivity.
  - rewrite <- (join_split "::" config_str) at 1 by discriminate.
    rewrite Hsplit. rewrite !join_cons by discriminate. reflexivity.
  - intros ->. vm_compute in Hsplit.
    injection Hsplit as <- <- <- <- <- <-. repeat split.
Qed.

End PluginFacts.

(** ** The plugin on the example host *)

#[local] Existing Instance Demo.host.

Lemma demo_never_cancelled : @never_cancelled Demo.host.
Proof.
  split.
  - intros p prompt context system_prompt w. simpl. unfold Demo.chat.
    destruct (String.eqb p "down"); [discriminate|].
    destruct (String.eqb p "mute"); discriminate.
  - intros origin chain w. discriminate.
Qed.

Lemma demo_croniter_after expr_format start it0 t it1 :
  Demo.cron_new expr_format start = inr it0 ->
  Demo.cron_get_next it0 = inr (t, it1) -> (start < t)%Z.
Proof.
  unfold Demo.cron_new, Demo.cron_get_next.
  destruct (Cron.parse expr_format) as [e|]; [|discriminate].
  intros [= <-]. simpl.
  destruct (Cron.next e start) as [t'|] eqn:Hnext; [|discriminate].
  intros [= <- _]. exact (next_after _ _ _ Hnext).
Qed.

Example split_example :
  Str.split "::" "p1::g1::provA::*/5 * * * *::hello::world"
  = ["p1"; "g1"; "provA"; "*/5 * * * *"; "hello"; "world"].
Proof. reflexivity. Qed.

Example split_overlap : Str.split "::" "a:::b" = ["a"; ":b"].
Proof. reflexivity. Qed.

Example cron_parse_example : Cron.parse "*/5 * * * *" = Some Demo.every5.
Proof. reflexivity. Qed.

Example cron_parse_out_of_range : Cron.parse "99 * * * *" = None.
Proof. reflexivity. Qed.

Example cron_parse_four_fields : Cron.parse "* * * *" = None.
Proof. reflexivity. Qed.

(** 2024-01-01 was a Monday, 2024-02-29 a Thursday. *)
Example calendar_2024 :
  (Cron.month_of_day 19723, Cron.dom_of_day 19723, Cron.dow_of_day 19723)
  = (1, 1, 1)%Z
  /\ (Cron.month_of_day 19782, Cron.dom_of_day 19782, Cron.dow_of_day 19782)
     = (2, 29, 4)%Z.
Proof. split; reflexivity. Qed.

(** Parsing a batch: one accepted string, one with too few segments, one with
    a bad cron field, and one direct-message string. *)
Example parse_configs_example :
  (parse_configs
     {| world := Demo.t_start;
        self := Demo.plugin
                  ["qq::g1::down::*/5 * * * *::hello::world"; "bad::entry";
                   "qq::g2::provA::99 * * * *::x"]
                  ["qq::u1::mute::*/5 * * * *::hey"] true false |}).2
  = [Log INFO (TriggerAdded group "qq" "g1" "*/5 * * * *" 1704067500);
     Log WARNING (BadFormat group "bad::entry");
     Log ERROR (InvalidCron group "99 * * * *" "bad cron expression");
     Log INFO (TriggerAdded private "qq" "u1" "*/5 * * * *" 1704067500)].
Proof. reflexivity. Qed.

(** The reference of the recomputation matters: for an entry due at 00:05
    and scanned at 00:12:30, croniter answers 00:15 from the instant of the
    scan, and would answer 00:10, already past, from the expired
    [next_run]. *)
Example next_run_counts_from_the_scan :
  Cron.next Demo.every5 (1704067500 + 450) = Some (1704067500 + 600)%Z
  /\ Cron.next Demo.every5 1704067500 = Some (1704067500 + 300)%Z.
Proof. split; vm_compute; reflexivity. Qed.

(** A cancelled sleep ends the loop through [break]: here the second sleep,
    the clock having reached the deadline. *)
Example cancellation_stops_the_loop :
  @scheduler_loop (Demo.cancelling_host 1704067560) 5
    (Demo.cancelling_state 1704067560)
  = (Returns Stopped,
     @Build_State (Demo.cancelling_host 1704067560) 1704067560%Z
       (@self _ (Demo.cancelling_state 1704067560)),
     [Sleep 30; Sleep 30]).
Proof. reflexivity. Qed.

(** On the host with the float clock a sleep of [10 ** 400] seconds raises
    and leaves the world as it was. *)
Lemma float_sleep_overflows w :
  @asyncio_sleep Lab.float_host (10 ^ 400)%Z w
  = (Raises (Exception "int too large to convert to float"), w).
Proof.
  assert (Hbig : (2 ^ 1024 <=? 10 ^ 400)%Z = true) by (vm_compute; reflexivity).
  cbv beta iota delta [asyncio_sleep Lab.float_host].
  rewrite Hbig. reflexivity.
Qed.

(** C6, on the code: with [scheduler_check_interval = 10 ** 400] and a due
    trigger, the sleep in the [try] raises [OverflowError]; the handler logs
    it and sleeps for the same interval outside every [try], so the same
    error is raised again and leaves the loop.  The loop ends with that
    exception in its first round, without any cancellation and before any
    scan, and the plugin never fires a trigger. *)
Theorem scheduler_loop_ends_with_an_exception :
  forall fuel,
    @scheduler_loop Lab.float_host (S fuel) Lab.float_state
    = (Raises (Exception "int too large to convert to float"),
       Lab.float_state,
       [@Sleep Lab.float_host (10 ^ 400);
        @Log Lab.float_host ERROR
          (LoopError "int too large to convert to float");
        @Sleep Lab.float_host (10 ^ 400)]).
Proof.
  intros fuel.
  exact (@loop_dies_in_the_handler Lab.float_host check_and_execute_triggers
           fuel Lab.float_state "int too large to convert to float"
           Demo.t_scan (Exception "int too large to convert to float")
           Demo.t_scan (float_sleep_overflows _) (float_sleep_overflows _)).
Qed.

(** C1, on the code: the provider of the first entry raises, failure
    notifications are enabled, and the scan goes on to the second entry, but
    the exception never reaches the handler that would notify: the trace
    holds the executor's error log and no failure notification. *)
Theorem provider_failure_is_not_notified :
  let s := Demo.with_entries
             [Demo.entry group "g1" "down"; Demo.entry private "u1" "provA"]
             (Demo.plugin [] [] true false) in
  notification_on_failure (self s) = true
  /\ (check_and_execute_triggers s).1.1 = Returns tt
  /\ (check_and_execute_triggers s).2
     = [Log INFO (Executing "qq" "g1" "*/5 * * * *");
        ExecuteTrigger 0; GetProviderById "down";
        TextChat "down" "hello" [] "你是一个有用的AI助手。";
        Log ERROR (TriggerFailed "provider down");
        Log INFO (Executed 1704067800);
        Log INFO (Executing "qq" "u1" "*/5 * * * *");
        ExecuteTrigger 1; GetProviderById "provA";
        TextChat "provA" "hello" [] "你是一个有用的AI助手。";
        SendMessage "qq:private_message:u1" ["hello"];
        Log INFO (ReplySent "qq" "u1");
        Log INFO (Executed 1704067800)]
  /\ count is_failure_notification (check_and_execute_triggers s).2 = 0.
Proof. repeat split; reflexivity. Qed.

(** With success notifications enabled the same failure is reported as a
    success. *)
Example failure_reported_as_success :
  (check_and_execute_triggers
     (Demo.with_entries [Demo.entry group "g1" "down"]
        (Demo.plugin [] [] true true))).2
  = [Log INFO (Executing "qq" "g1" "*/5 * * * *");
     ExecuteTrigger 0; GetProviderById "down";
     TextChat "down" "hello" [] "你是一个有用的AI助手。";
     Log ERROR (TriggerFailed "provider down");
     Log INFO (Executed 1704067800);
     SendNotification "✅ 定时LLM触发任务执行成功: qq:g1" "success";
     Log INFO (Notice "✅ 定时LLM触发任务执行成功: qq:g1")].
Proof. reflexivity. Qed.

(** ** The theorems at work on the example host *)

Lemma next_fire_time_advances_witness :
  Cron.parse "*/5 * * * *" = Some Demo.every5
  /\ Cron.next Demo.every5 Demo.t_start = Some 1704067500%Z
  /\ (Demo.t_start < 1704067500)%Z
  /\ (exists t', Cron.next Demo.every5 1704067500 = Some t'
                 /\ (1704067500 < t')%Z)
  /\ forall ref', exists t', Cron.next Demo.every5 ref' = Some t'
                             /\ (ref' < t')%Z.
Proof.
  split; [reflexivity|]. split; [vm_compute; reflexivity|].
  apply (next_fire_time_advances "*/5 * * * *" Demo.every5 Demo.t_start);
    [reflexivity|vm_compute; reflexivity].
Defined.

Lemma due_trigger_fires_once_witness :
  exists w' p' t c',
    check_and_execute_triggers
      (Demo.with_entries [Demo.entry group "g1" "provA"]
         (Demo.plugin [] [] true false))
    = (Returns tt, {| world := w'; self := p' |}, t)
    /\ count (is_execute 0) t = 1
    /\ trigger_configs p' !! 0 = Some c'
    /\ last_run c' = Some Demo.t_scan
    /\ next_run c' = 1704067800%Z
    /\ cron c' = (Demo.every5, 1704067800%Z)
    /\ (Demo.t_scan < next_run c')%Z.
Proof.
  apply (@due_trigger_fires_once Demo.host Demo.t_scan _ Demo.t_scan Demo.t_scan
           0 (Demo.entry group "g1" "provA") (Demo.every5, Demo.t_scan)).
  - exact demo_never_cancelled.
  - exact demo_croniter_after.
  - reflexivity.
  - reflexivity.
  - vm_compute. discriminate.
  - reflexivity.
  - vm_compute. reflexivity.
Defined.

Lemma success_path_runs_unconditionally_witness :
  (forall j s, (execute_trigger j s).1.1 = Returns tt)
  /\ exists w' p' t c',
      check_and_execute_triggers
        (Demo.with_entries [Demo.entry group "g1" "down"]
           (Demo.plugin [] [] true true))
      = (Returns tt, {| world := w'; self := p' |}, t)
      /\ trigger_configs p' !! 0 = Some c'
      /\ last_run c' = Some Demo.t_scan
      /\ next_run c' = 1704067800%Z
      /\ (notification_on_success
            (with_trigger_configs [Demo.entry group "g1" "down"]
               (Demo.plugin [] [] true true)) = true ->
          In (SendNotification
                (success_message (Demo.entry group "g1" "down")) "success") t).
Proof.
  apply (@success_path_runs_unconditionally Demo.host Demo.t_scan _ Demo.t_scan
           Demo.t_scan 0 (Demo.entry group "g1" "down")
           (Demo.every5, Demo.t_scan) 1704067800%Z
           (Demo.every5, 1704067800%Z)).
  - exact demo_never_cancelled.
  - reflexivity.
  - reflexivity.
  - vm_compute. discriminate.
  - reflexivity.
  - vm_compute. reflexivity.
Defined.

Lemma unresolved_provider_is_skipped_witness :
  exists t,
    execute_trigger 0
      (Demo.with_entries [Demo.entry group "g1" "ghost"]
         (Demo.plugin [] [] true true))
    = (Returns tt,
       Demo.with_entries [Demo.entry group "g1" "ghost"]
         (Demo.plugin [] [] true true), t)
    /\ t = [ExecuteTrigger 0; GetProviderById "ghost";
            Log WARNING (ProviderNotFound "ghost")]
    /\ count is_text_chat t = 0
    /\ count is_send_message t = 0
    /\ count is_notification t = 0.
Proof.
  apply (@unresolved_provider_is_skipped Demo.host 0 Demo.t_scan _
           (Demo.entry group "g1" "ghost") Demo.t_scan); reflexivity.
Defined.

Lemma empty_reply_is_not_delivered_witness :
  exists t,
    execute_trigger 0
      (Demo.with_entries [Demo.entry group "g1" "mute"]
         (Demo.plugin [] [] true true))
    = (Returns tt,
       Demo.with_entries [Demo.entry group "g1" "mute"]
         (Demo.plugin [] [] true true), t)
    /\ t = [ExecuteTrigger 0; GetProviderById "mute";
            TextChat "mute" "hello" [] default_system_prompt;
            Log WARNING (NoValidReply "mute")]
    /\ count is_send_message t = 0.
Proof.
  apply (@empty_reply_is_not_delivered Demo.host 0 Demo.t_scan _
           (Demo.entry group "g1" "mute") "mute" Demo.t_scan (Some None)
           Demo.t_scan);
    [reflexivity|reflexivity|reflexivity|right; left; reflexivity].
Defined.

Lemma executor_call_arguments_witness :
  execute_trigger 0
    (Demo.with_entries [Demo.entry private "u1" "provA"]
       (Demo.plugin [] [] true true))
  = (Returns tt,
     Demo.with_entries [Demo.entry private "u1" "provA"]
       (Demo.plugin [] [] true true),
     [ExecuteTrigger 0; GetProviderById "provA";
      TextChat "provA" "hello" [] "你是一个有用的AI助手。";
      SendMessage "qq:private_message:u1" ["hello"];
      Log INFO (ReplySent "qq" "u1")])
  /\ forall origin chain,
      In (SendMessage origin chain)
        [ExecuteTrigger 0; GetProviderById "provA";
         TextChat "provA" "hello" [] "你是一个有用的AI助手。";
         SendMessage "qq:private_message:u1" ["hello"];
         Log INFO (ReplySent "qq" "u1")] ->
      origin = "qq" +:+ ":" +:+ "private_message" +:+ ":" +:+ "u1".
Proof.
  split; [reflexivity|].
  exact (proj1 (proj2
           (@executor_call_arguments Demo.host 0 Demo.t_scan
              (with_trigger_configs [Demo.entry private "u1" "provA"]
                 (Demo.plugin [] [] true true))
              (Demo.entry private "u1" "provA") _ _ _ eq_refl eq_refl))).
Defined.

Lemma malformed_string_is_skipped_witness :
  length (Str.split "::" "bad::entry") < 5
  /\ forall s,
      parse_config group "bad::entry" s
      = (Returns tt, s, [Log WARNING (BadFormat group "bad::entry")]).
Proof.
  split; [vm_compute; lia|].
  apply (@malformed_string_is_skipped Demo.host group "bad::entry").
  vm_compute. lia.
Defined.

Lemma parse_config_fields_witness :
  (parse_config group "p1::g1::provA::*/5 * * * *::hello::world"
     {| world := Demo.t_start; self := Demo.plugin [] [] true false |}).1.2
  = {| world := Demo.t_start;
       self :=
         with_trigger_configs
           [{| type := group; platform := "p1"; target_id := "g1";
               provider := "provA"; cron_expression := "*/5 * * * *";
               cron := (Demo.every5, Demo.t_start);
               next_run := 1704067500%Z; last_run := None;
               message := "hello::world" |}]
           (Demo.plugin [] [] true false) |}.
Proof.
  rewrite (proj1 (@parse_config_fields Demo.host group
                    "p1::g1::provA::*/5 * * * *::hello::world"
                    Demo.t_start (Demo.plugin [] [] true false)
                    "p1" "g1" "provA" "*/5 * * * *" "hello" ["world"]
                    Demo.t_start Demo.t_start (Demo.every5, Demo.t_start)
                    1704067500%Z (Demo.every5, 1704067500%Z)
                    Demo.t_start Demo.t_start (Demo.every5, Demo.t_start)
                    eq_refl eq_refl eq_refl eq_refl eq_refl eq_refl)).
  reflexivity.
Defined.

(** ** Further properties of the code *)

(** ** The raw format, from fields to entry *)

Lemma prefix_sep_app rest : String.prefix "::" ("::" +:+ rest) = true.
Proof. destruct rest; reflexivity. Qed.

Lemma prefix_sep_other c s :
  Ascii.eqb c ":" = false -> String.prefix "::" (String c s) = false.
Proof.
  intros Hc.
  change (String.prefix "::" (String c s))
    with (match Ascii.ascii_dec ":" c with
          | left _ => String.prefix ":" s
          | right _ => false
          end).
  destruct (Ascii.ascii_dec ":" c) as [<-|]; [|reflexivity].
  rewrite Ascii.eqb_refl in Hc. discriminate.
Qed.

(** A field without colon is cut off at the separator that follows it. *)
Lemma split_colon_free a rest :
  colon_free a = true ->
  Str.split "::" (a +:+ "::" +:+ rest) = a :: Str.split "::" rest.
Proof.
  unfold Str.split. induction a as [|c a IH]; intros Hfree.
  - change ("" +:+ "::" +:+ rest) with (String ":" (String ":" rest)).
    cbn [Str.split_aux].
    change (String ":" (String ":" rest)) with ("::" +:+ rest).
    rewrite prefix_sep_app. reflexivity.
  - simpl in Hfree. apply andb_prop in Hfree as [Hc Hfree].
    apply negb_true_iff in Hc.
    change (String c a +:+ "::" +:+ rest)
      with (String c (a +:+ "::" +:+ rest)).
    cbn [Str.split_aux]. rewrite (prefix_sep_other _ _ Hc), (IH Hfree).
    reflexivity.
Qed.

Section ParseFacts.

Context `{Host}.

Ltac munfold :=
  unfold mbind, M_bind, mret, M_ret, bind, ret, raise, try_except, try_with,
    emit, logger, gets, modify, call_sync, await in *.

(** X3. Writing four fields without colon and any message, even an empty
    one or one that holds ["::"], with ["::"] between them gives a string
    that is parsed back into exactly these fields and this message, as soon
    as croniter accepts the expression. *)
Theorem format_round_trip
    ty w p a b c d m t0 w0 it next_time it0 t1 w1 fresh :
  colon_free a = true -> colon_free b = true ->
  colon_free c = true -> colon_free d = true ->
  datetime_now w = (t0, w0) ->
  croniter_new d t0 = inr it ->
  croniter_get_next it = inr (next_time, it0) ->
  datetime_now w0 = (t1, w1) ->
  croniter_new d t1 = inr fresh ->
  parse_config ty
    (a +:+ "::" +:+ b +:+ "::" +:+ c +:+ "::" +:+ d +:+ "::" +:+ m)
    {| world := w; self := p |}
  = (Returns tt,
     {| world := w1;
        self :=
          with_trigger_configs
            (trigger_configs p ++
             [{| type := ty; platform := a; target_id := b; provider := c;
                 cron_expression := d; cron := fresh; next_run := next_time;
                 last_run := None; message := m |}])
            p |},
     [Log INFO (TriggerAdded ty a b d next_time)]).
Proof.
  intros Ha Hb Hc Hd Hnow0 Hnew Hnext Hnow1 Hfresh.
  assert (Hsplit :
            Str.split "::"
              (a +:+ "::" +:+ b +:+ "::" +:+ c +:+ "::" +:+ d +:+ "::" +:+ m)
            = a :: b :: c :: d :: Str.split "::" m).
  { rewrite (split_colon_free a _ Ha), (split_colon_free b _ Hb),
      (split_colon_free c _ Hc), (split_colon_free d _ Hd). reflexivity. }
  pose proof (join_split "::" m ltac:(discriminate)) as Hjoin.
  unfold Str.split in Hjoin.
  destruct (Str.split_aux "::" 0 m) as [|seg segs] eqn:Hm;
    [exfalso; exact (split_aux_nonempty _ _ _ Hm)|].
  unfold parse_config, now, croniter, get_next. munfold.
  rewrite Hsplit. unfold Str.split. rewrite Hm.
  cbn [length Nat.leb nth drop].
  rewrite Hjoin. simpl.
  rewrite Hnow0. simpl. rewrite Hnew. simpl. rewrite Hnext. simpl.
  rewrite Hnow1. simpl. rewrite Hfresh. simpl. reflexivity.
Qed.

(** X1. A string of five segments or more whose expression croniter
    rejects, at construction or when asked for the first fire time, adds no
    entry: the plugin is left as it was and the error is logged. *)
Theorem invalid_cron_is_skipped ty config_str w p t0 w0 e :
  5 <= length (Str.split "::" config_str) ->
  datetime_now w = (t0, w0) ->
  (croniter_new (nth 3 (Str.split "::" config_str) "") t0 = inl e
   \/ exists it,
       croniter_new (nth 3 (Str.split "::" config_str) "") t0 = inr it
       /\ croniter_get_next it = inl e) ->
  parse_config ty config_str {| world := w; self := p |}
  = (Returns tt, {| world := w0; self := p |},
     [Log ERROR
        (InvalidCron ty (nth 3 (Str.split "::" config_str) "") e)]).
Proof.
  intros Hlen Hnow Hbad.
  unfold parse_config, now, croniter, get_next. munfold.
  destruct (Nat.leb_spec 5 (length (Str.split "::" config_str))); [|lia].
  simpl. rewrite Hnow. simpl.
  destruct Hbad as [Hnew | (it & Hnew & Hnext)]; rewrite Hnew; simpl;
    [reflexivity|].
  rewrite Hnext. reflexivity.
Qed.

(** One string adds at most one entry, and only an entry read off it. *)
Lemma parse_config_shape ty config_str w p :
  exists w' new t,
    parse_config ty config_str {| world := w; self := p |}
    = (Returns tt,
       {| world := w';
          self := with_trigger_configs (trigger_configs p ++ new) p |}, t)
    /\ Forall (parsed_from ty config_str) new
    /\ length new <= 1.
Proof.
  assert (Hsame :
            forall w', {| world := w'; self := p |}
            = {| world := w';
                 self := with_trigger_configs (trigger_configs p ++ []) p |}).
  { intros w'. rewrite app_nil_r. destruct p; reflexivity. }
  unfold parse_config, now, croniter, get_next. munfold.
  destruct (Nat.leb_spec 5 (length (Str.split "::" config_str))) as [Hlen|Hlen].
  2:{ eexists w, [], _. rewrite <- Hsame. split; [reflexivity|]. auto. }
  simpl. destruct (datetime_now w) as [t0 w0]. simpl.
  destruct (croniter_new _ t0) as [e|it]; simpl.
  { eexists w0, [], _. rewrite <- Hsame. split; [reflexivity|]. auto. }
  destruct (croniter_get_next it) as [e|[next_time it']]; simpl.
  { eexists w0, [], _. rewrite <- Hsame. split; [reflexivity|]. auto. }
  destruct (datetime_now w0) as [t1 w1]. simpl.
  destruct (croniter_new _ t1) as [e|fresh]; simpl.
  { eexists w1, [], _. rewrite <- Hsame. split; [reflexivity|]. auto. }
  eexists w1, [_], _. split; [reflexivity|]. split; [|simpl; lia].
  constructor; [|constructor]. unfold parsed_from. simpl. auto 10.
Qed.

Lemma parse_batch_shape ty l :
  forall w p,
    exists w' new t,
      for_each l (parse_config ty) {| world := w; self := p |}
      = (Returns tt,
         {| world := w';
            self := with_trigger_configs (trigger_configs p ++ new) p |}, t)
      /\ Forall (fun c => exists config_str,
                     In config_str l /\ parsed_from ty config_str c) new
      /\ length new <= length l.
Proof.
  induction l as [|x l IH]; intros w p.
  - exists w, [], []. rewrite app_nil_r. simpl.
    split; [destruct p; reflexivity|]. auto.
  - destruct (parse_config_shape ty x w p) as (w1 & new1 & t1 & Hx & Hf1 & Hl1).
    destruct (IH w1 (with_trigger_configs (trigger_configs p ++ new1) p))
      as (w2 & new2 & t2 & Hrest & Hf2 & Hl2).
    exists w2, (new1 ++ new2), (t1 ++ t2).
    rewrite for_each_cons, Hx, Hrest. simpl. rewrite <- app_assoc.
    split; [reflexivity|]. split.
    + apply Forall_app. split.
      * eapply Forall_impl; [exact Hf1|]. intros c Hc. exists x. simpl. auto.
      * eapply Forall_impl; [exact Hf2|]. intros c (y & Hy & Hc).
        exists y. simpl. auto.
    + rewrite length_app. simpl. lia.
Qed.

(** X2. [_parse_configs] never raises and touches nothing but
    [trigger_configs], which it builds afresh, the entries present before
    being dropped: first the entries of the group list, each of type [group]
    and read off one of its strings of five segments or more, then those of
    the friend list, of type [private]; no list gives more entries than it
    has strings, and no entry has run yet. *)
Theorem parse_configs_shape w p :
  exists w' groups friends t,
    parse_configs {| world := w; self := p |}
    = (Returns tt,
       {| world := w'; self := with_trigger_configs (groups ++ friends) p |},
       t)
    /\ Forall (fun c => exists config_str,
                   In config_str (platform_group_provider_map p)
                   /\ parsed_from group config_str c) groups
    /\ Forall (fun c => exists config_str,
                   In config_str (platform_friend_provider_map p)
                   /\ parsed_from private config_str c) friends
    /\ length groups <= length (platform_group_provider_map p)
    /\ length friends <= length (platform_friend_provider_map p).
Proof.
  destruct (parse_batch_shape group (platform_group_provider_map p) w
              (with_trigger_configs [] p))
    as (w1 & groups & t1 & Hg & Hfg & Hlg).
  destruct (parse_batch_shape private (platform_friend_provider_map p) w1
              (with_trigger_configs groups p))
    as (w2 & friends & t2 & Hf & Hff & Hlf).
  simpl in Hg, Hf.
  exists w2, groups, friends, (t1 ++ t2).
  split; [|auto].
  unfold parse_configs. munfold. simpl. rewrite Hg. simpl.
  change (with_trigger_configs groups (with_trigger_configs [] p))
    with (with_trigger_configs groups p).
  rewrite Hf. reflexivity.
Qed.

End ParseFacts.

(** ** The executor and the scan, further *)

Section ScanFacts.

Context `{Host}.

#[local] Arguments execute_trigger : simpl never.
#[local] Arguments send_notification : simpl never.

Ltac munfold :=
  unfold mbind, M_bind, mret, M_ret, bind, ret, raise, try_except, try_with,
    emit, logger, gets, modify, call_sync, await in *.

(** the deliveries of an explicit trace, by cases *)
Ltac no_send :=
  let Hin := fresh "Hin" in
  intros Hin; simpl in Hin;
  repeat match goal with Hx : _ \/ _ |- _ => destruct Hx end;
  try discriminate; try contradiction;
  try (match goal with
       | Hx : SendMessage _ _ = SendMessage _ _ |- _ => injection Hx as <- <-
       end; eauto 10).

(** X14. [_send_notification] only writes to the log: whatever the
    administrator configured, it returns normally, leaves the state as it
    was, and calls neither a provider nor the delivery. *)
Theorem notification_is_only_logged message level s :
  (send_notification message level s).1 = (Returns tt, s)
  /\ (send_notification message level s).2
     = [SendNotification message level; notice (self s) message]
  /\ count is_send_message (send_notification message level s).2 = 0
  /\ count is_text_chat (send_notification message level s).2 = 0.
Proof. rewrite send_notification_run. repeat split. Qed.

(** X9. An exception raised by the registry, by the provider or by the
    delivery stops the executor where it is, is logged with its text, and
    goes no further: the executor returns normally and the plugin is left as
    it was. *)
Theorem executor_swallows_errors i w p c :
  trigger_configs p !! i = Some c ->
  (forall e w1,
      get_provider_by_id (provider c) w = (inl e, w1) ->
      execute_trigger i {| world := w; self := p |}
      = (Returns tt, {| world := w1; self := p |},
         [ExecuteTrigger i; GetProviderById (provider c);
          Log ERROR (TriggerFailed e)]))
  /\ (forall prov w1 e w2,
        get_provider_by_id (provider c) w = (inr (Some prov), w1) ->
        text_chat prov (message c) [] default_system_prompt w1
        = (Raises (Exception e), w2) ->
        execute_trigger i {| world := w; self := p |}
        = (Returns tt, {| world := w2; self := p |},
           [ExecuteTrigger i; GetProviderById (provider c);
            TextChat prov (message c) [] default_system_prompt;
            Log ERROR (TriggerFailed e)]))
  /\ (forall prov w1 chain w2 e w3,
        get_provider_by_id (provider c) w = (inr (Some prov), w1) ->
        text_chat prov (message c) [] default_system_prompt w1
        = (Returns (Some (Some chain)), w2) ->
        chain_truth chain = true ->
        send_message (unified_msg_origin c) chain w2
        = (Raises (Exception e), w3) ->
        execute_trigger i {| world := w; self := p |}
        = (Returns tt, {| world := w3; self := p |},
           [ExecuteTrigger i; GetProviderById (provider c);
            TextChat prov (message c) [] default_system_prompt;
            SendMessage (unified_msg_origin c) chain;
            Log ERROR (TriggerFailed e)])).
Proof.
  intros Hc. split; [|split].
  - intros e w1 Hget. unfold execute_trigger, config_at. munfold. simpl.
    rewrite Hc. simpl. rewrite Hget. reflexivity.
  - intros prov w1 e w2 Hget Hchat.
    unfold execute_trigger, config_at. munfold. simpl.
    rewrite Hc. simpl. rewrite Hget. simpl. rewrite Hchat. reflexivity.
  - intros prov w1 chain w2 e w3 Hget Hchat Htruth Hsend.
    unfold execute_trigger, config_at. munfold. simpl.
    rewrite Hc. simpl. rewrite Hget. simpl. rewrite Hchat. simpl.
    rewrite Htruth. simpl. rewrite Hsend. reflexivity.
Qed.

(** X10. In one run the executor calls a provider at most once and delivers
    at most once, and what it delivers is a result chain that the resolved
    provider has just returned for the trigger's message. *)
Theorem executor_delivers_what_the_provider_returned i w p c r s' t :
  trigger_configs p !! i = Some c ->
  execute_trigger i {| world := w; self := p |} = (r, s', t) ->
  count is_text_chat t <= 1
  /\ count is_send_message t <= 1
  /\ forall origin chain,
      In (SendMessage origin chain) t ->
      exists prov w1 w2,
        get_provider_by_id (provider c) w = (inr (Some prov), w1)
        /\ text_chat prov (message c) [] default_system_prompt w1
           = (Returns (Some (Some chain)), w2)
        /\ chain_truth chain = true.
Proof.
  intros Hc. unfold execute_trigger, config_at. munfold. simpl.
  rewrite Hc. simpl.
  destruct (get_provider_by_id (provider c) w) as [[e|[prov|]] w1]; simpl.
  1,3: intros [= <- <- <-]; (split; [unfold count; simpl; lia|]);
       (split; [unfold count; simpl; lia|]); intros origin chain; no_send.
  destruct (text_chat prov (message c) [] default_system_prompt w1)
    as [[resp|e] w2] eqn:Hchat; simpl.
  2:{ destruct e; simpl; intros [= <- <- <-];
      (split; [unfold count; simpl; lia|]);
      (split; [unfold count; simpl; lia|]); intros origin chain; no_send. }
  destruct (valid_reply resp) as [chain|] eqn:Hv; simpl.
  2:{ intros [= <- <- <-]; (split; [unfold count; simpl; lia|]);
      (split; [unfold count; simpl; lia|]); intros origin chain; no_send. }
  assert (Hresp : resp = Some (Some chain) /\ chain_truth chain = true).
  { destruct resp as [[ch|]|]; simpl in Hv; try discriminate.
    destruct (chain_truth ch) eqn:Hch; [|discriminate].
    injection Hv as ->. auto. }
  destruct Hresp as [-> Htruth].
  destruct (send_message (unified_msg_origin c) chain w2) as [[[]|e] w3];
    simpl; [|destruct e; simpl];
    intros [= <- <- <-]; (split; [unfold count; simpl; lia|]);
    (split; [unfold count; simpl; lia|]); intros origin chain'; no_send.
Qed.

(** X11. When the provider call of a due trigger is cancelled, the
    cancellation is not logged as a failure and not swallowed: it leaves the
    executor and the scan at once, so that the entry keeps its [last_run] and
    [next_run] and is still due, and the entries after it are not looked
    at. *)
Theorem cancelled_execution_leaves_trigger_due
    current_time i w p c prov w1 w2 rest :
  trigger_configs p !! i = Some c ->
  (next_run c <= current_time)%Z ->
  get_provider_by_id (provider c) w = (inr (Some prov), w1) ->
  text_chat prov (message c) [] default_system_prompt w1
  = (Raises CancelledError, w2) ->
  for_each (i :: rest) (check_trigger current_time) {| world := w; self := p |}
  = (Raises CancelledError, {| world := w2; self := p |},
     [Log INFO (Executing (platform c) (target_id c) (cron_expression c));
      ExecuteTrigger i; GetProviderById (provider c);
      TextChat prov (message c) [] default_system_prompt]).
Proof.
  intros Hc Hdue Hget Hchat.
  assert (Hex :
            execute_trigger i {| world := w; self := p |}
            = (Raises CancelledError, {| world := w2; self := p |},
               [ExecuteTrigger i; GetProviderById (provider c);
                TextChat prov (message c) [] default_system_prompt])).
  { unfold execute_trigger, config_at. munfold. simpl.
    rewrite Hc. simpl. rewrite Hget. simpl. rewrite Hchat. reflexivity. }
  rewrite for_each_cons,
    (check_trigger_cancelled _ _ _ _ _ _ _ Hc Hdue Hex).
  reflexivity.
Qed.

(** X4. When croniter fails for a trigger that has just fired, at
    construction or when asked for the next fire time, the entry gets its
    [last_run] but keeps the [next_run] that has expired, so it is due again
    at the next scan; the failure is logged and a failure notification is
    sent exactly when [notification_on_failure] is set. *)
Theorem croniter_failure_keeps_trigger_due current_time i w p c e :
  never_cancelled ->
  trigger_configs p !! i = Some c ->
  (next_run c <= current_time)%Z ->
  (croniter_new (cron_expression c) current_time = inl e
   \/ exists it,
       croniter_new (cron_expression c) current_time = inr it
       /\ croniter_get_next it = inl e) ->
  exists w' c' t,
    check_trigger current_time i {| world := w; self := p |}
    = (Returns tt, set_config i c' {| world := w'; self := p |}, t)
    /\ last_run c' = Some current_time
    /\ next_run c' = next_run c
    /\ count (is_execute i) t = 1
    /\ In (Log ERROR (TaskFailed e)) t
    /\ count is_failure_notification t
       = (if notification_on_failure p then 1 else 0)
    /\ (notification_on_failure p = true ->
        In (SendNotification (failure_message e) "error") t).
Proof.
  intros Hnc Hc Hdue Hbad.
  destruct (execute_trigger_inv i {| world := w; self := p |})
    as (r1 & w1 & t1 & Hex & _ & Hcnt & _ & Hfail & Hret).
  simpl in Hex. rewrite (Hret Hnc) in Hex.
  assert (Hfacts : forall tail,
             tail = (if notification_on_failure p
                     then [SendNotification (failure_message e) "error";
                           notice p (failure_message e)]
                     else []) ->
             let t := Log INFO (Executing (platform c) (target_id c)
                                  (cron_expression c))
                      :: (ExecuteTrigger i :: t1)
                         ++ Log ERROR (TaskFailed e) :: tail in
             count (is_execute i) t = 1
             /\ In (Log ERROR (TaskFailed e)) t
             /\ count is_failure_notification t
                = (if notification_on_failure p then 1 else 0)
             /\ (notification_on_failure p = true ->
                 In (SendNotification (failure_message e) "error") t)).
  { intros tail -> t. subst t. split; [|split; [|split]].
    - rewrite count_cons, count_app, !count_cons, Hcnt. simpl.
      rewrite Nat.eqb_refl. destruct (notification_on_failure p); reflexivity.
    - right. apply in_or_app. right. left. reflexivity.
    - rewrite count_cons, count_app, !count_cons, Hfail.
      destruct (notification_on_failure p); reflexivity.
    - intros ->. right. apply in_or_app. right. right. left. reflexivity. }
  destruct Hbad as [Hnew | (it & Hnew & Hnext)].
  - eexists w1, _, _.
    rewrite (check_trigger_bad_cron _ _ _ _ _ _ _ _ Hc Hdue Hex Hnew).
    split; [reflexivity|]. split; [reflexivity|]. split; [reflexivity|].
    apply Hfacts. reflexivity.
  - eexists w1, _, _.
    rewrite (check_trigger_no_next _ _ _ _ _ _ _ _ _ Hc Hdue Hex Hnew Hnext).
    split; [reflexivity|]. split; [reflexivity|]. split; [reflexivity|].
    apply Hfacts. reflexivity.
Qed.

(** *** A scan with nothing to do, and the state a scan leaves *)

Lemma idle_range current_time w p :
  (forall j c, trigger_configs p !! j = Some c -> (current_time < next_run c)%Z) ->
  forall n a,
    a + n <= length (trigger_configs p) ->
    for_each (seq a n) (check_trigger current_time) {| world := w; self := p |}
    = (Returns tt, {| world := w; self := p |}, []).
Proof.
  intros Hidle. induction n as [|n IH]; intros a Hlen; [reflexivity|].
  destruct (lookup_lt_is_Some_2 (trigger_configs p) a) as [c Hc]; [lia|].
  simpl seq.
  rewrite for_each_cons,
    (check_trigger_not_due _ _ _ _ _ Hc (Hidle _ _ Hc)), IH by lia.
  reflexivity.
Qed.

(** X5. A scan that finds no trigger due does nothing but read the clock:
    no log line, no call, no change to the plugin. *)
Theorem idle_scan w p current_time w0 :
  datetime_now w = (current_time, w0) ->
  (forall j c, trigger_configs p !! j = Some c -> (current_time < next_run c)%Z) ->
  check_and_execute_triggers {| world := w; self := p |}
  = (Returns tt, {| world := w0; self := p |}, []).
Proof.
  intros Hnow Hidle. unfold check_and_execute_triggers, now. munfold. simpl.
  rewrite Hnow. simpl. rewrite (idle_range _ _ _ Hidle) by lia. reflexivity.
Qed.

(** X6. In a scan that fires other triggers, a trigger that is not yet due
    is neither executed nor changed. *)
Theorem waiting_trigger_is_left_alone w p current_time w0 j c :
  never_cancelled ->
  datetime_now w = (current_time, w0) ->
  trigger_configs p !! j = Some c ->
  (current_time < next_run c)%Z ->
  exists s' t,
    check_and_execute_triggers {| world := w; self := p |}
    = (Returns tt, s', t)
    /\ trigger_configs (self s') !! j = Some c
    /\ count (is_execute j) t = 0.
Proof.
  intros Hnc Hnow Hc Hwait.
  destruct (scan_spec w p current_time w0 Hnow)
    as (r & w' & cfgs & t & Hrun & _ & _ & Hret & _ & Hdone).
  specialize (Hret Hnc). subst r.
  specialize (Hdone eq_refl j c Hc). unfold entry_done in Hdone.
  destruct (Z.leb_spec (next_run c) current_time); [lia|].
  do 2 eexists. split; [exact Hrun|]. simpl. tauto.
Qed.

(** X7. After a completed scan no trigger is due at the instant of the
    scan, provided croniter answers for the triggers that fired (its answers
    lying after their reference): a second scan that reads the same instant
    does nothing. *)
Theorem nothing_is_due_after_a_scan w p current_time w0 :
  never_cancelled ->
  (forall expr_format start it0 t it1,
      croniter_new expr_format start = inr it0 ->
      croniter_get_next it0 = inr (t, it1) -> (start < t)%Z) ->
  datetime_now w = (current_time, w0) ->
  (forall j c, trigger_configs p !! j = Some c ->
               (next_run c <= current_time)%Z -> croniter_ok current_time c) ->
  exists w' p' t,
    check_and_execute_triggers {| world := w; self := p |}
    = (Returns tt, {| world := w'; self := p' |}, t)
    /\ (forall j c', trigger_configs p' !! j = Some c' ->
                     (current_time < next_run c')%Z)
    /\ forall w'',
        datetime_now w' = (current_time, w'') ->
        check_and_execute_triggers {| world := w'; self := p' |}
        = (Returns tt, {| world := w''; self := p' |}, []).
Proof.
  intros Hnc Hstrict Hnow Hok.
  destruct (scan_spec w p current_time w0 Hnow)
    as (r & w' & cfgs & t & Hrun & Hlen & _ & Hret & _ & Hdone).
  specialize (Hret Hnc). subst r. specialize (Hdone eq_refl).
  assert (Hlater : forall j c',
             trigger_configs (with_trigger_configs cfgs p) !! j = Some c' ->
             (current_time < next_run c')%Z).
  { intros j c' Hc'. simpl in Hc'.
    destruct (lookup_lt_is_Some_2 (trigger_configs p) j) as [c Hc].
    { rewrite <- Hlen. eapply lookup_lt_Some; exact Hc'. }
    specialize (Hdone j c Hc). unfold entry_done in Hdone. simpl in Hdone.
    destruct (Z.leb_spec (next_run c) current_time) as [Hdue|Hwait].
    - destruct (Hok j c Hc Hdue) as (it & nt & it' & Hnew & Hnext).
      destruct Hdone as [_ Hupd].
      destruct (Hupd it nt it' Hnew Hnext) as [Hl _].
      assert (c' = fired current_time it' nt c) by congruence. subst c'.
      simpl. eapply Hstrict; eassumption.
    - destruct Hdone as [_ Hl]. assert (c' = c) by congruence. subst c'.
      exact Hwait. }
  exists w', (with_trigger_configs cfgs p), t.
  split; [exact Hrun|]. split; [exact Hlater|].
  intros w'' Hnow'. exact (idle_scan _ _ current_time w'' Hnow' Hlater).
Qed.

(** *** What no scan changes *)

Lemma static_set_config i c c' w p :
  trigger_configs p !! i = Some c ->
  identity c' = identity c ->
  static (self (set_config i c' {| world := w; self := p |})) = static p.
Proof.
  intros Hc Hid. unfold static, set_config. simpl. f_equal.
  rewrite list_fmap_insert. apply list_insert_id.
  rewrite list_lookup_fmap, Hc. simpl. congruence.
Qed.

Lemma check_trigger_static current_time i s :
  static (self (check_trigger current_time i s).1.2) = static (self s).
Proof.
  destruct s as [w p]. simpl self.
  destruct (trigger_configs p !! i) as [c|] eqn:Hc.
  2:{ unfold check_trigger, config_at. munfold. simpl. rewrite Hc. simpl.
      destruct (notification_on_failure p); simpl;
        [rewrite send_notification_run|]; reflexivity. }
  destruct (Z.leb_spec (next_run c) current_time) as [Hdue|Hwait].
  2:{ rewrite (check_trigger_not_due _ _ _ _ _ Hc Hwait). reflexivity. }
  destruct (execute_trigger_inv i {| world := w; self := p |})
    as (r1 & w1 & t1 & Hex & Hr & _).
  simpl in Hex. destruct Hr as [-> | ->].
  2:{ rewrite (check_trigger_cancelled _ _ _ _ _ _ _ Hc Hdue Hex).
      reflexivity. }
  destruct (croniter_new (cron_expression c) current_time) as [e|it] eqn:Hnew.
  { rewrite (check_trigger_bad_cron _ _ _ _ _ _ _ _ Hc Hdue Hex Hnew).
    apply (static_set_config _ _ _ _ _ Hc). reflexivity. }
  destruct (croniter_get_next it) as [e|[next_time it']] eqn:Hnext.
  { rewrite (check_trigger_no_next _ _ _ _ _ _ _ _ _ Hc Hdue Hex Hnew Hnext).
    apply (static_set_config _ _ _ _ _ Hc). reflexivity. }
  rewrite (check_trigger_fired _ _ _ _ _ _ _ _ _ _ Hc Hdue Hex Hnew Hnext).
  apply (static_set_config _ _ _ _ _ Hc). reflexivity.
Qed.

Lemma for_each_static current_time l :
  forall s,
    static (self (for_each l (check_trigger current_time) s).1.2)
    = static (self s).
Proof.
  induction l as [|i l IH]; intros s; [reflexivity|].
  rewrite for_each_cons.
  pose proof (check_trigger_static current_time i s) as Hi.
  destruct (check_trigger current_time i s) as [[[[]|e] s1] t1];
    simpl in Hi; [|exact Hi].
  specialize (IH s1).
  destruct (for_each l (check_trigger current_time) s1) as [[r s2] t2].
  simpl in *. congruence.
Qed.

(** X8. However a scan ends, by returning or by a cancellation, it has
    changed neither the settings of the plugin nor the number and order of
    the entries, nor the type, platform, target, provider, expression or
    message of any entry. *)
Theorem scan_keeps_settings_and_identities s :
  static (self (check_and_execute_triggers s).1.2) = static (self s).
Proof.
  destruct s as [w p].
  unfold check_and_execute_triggers, now. munfold. simpl.
  destruct (datetime_now w) as [current_time w0]. simpl.
  pose proof (for_each_static current_time
                (seq 0 (length (trigger_configs p)))
                {| world := w0; self := p |}) as Hs.
  destruct (for_each _ _ _) as [[r s'] t]. exact Hs.
Qed.

(** *** How the loop goes on and how it ends *)


(** X19. The loop ends with an exception in one place only: whatever it
    raises, a cancellation or an error, was raised by the sleep of the
    handler, which is the last call of the run and follows the log of the
    error that the round had caught. *)
Theorem loop_fails_only_in_the_handler scan fuel s e s' t :
  scheduler_loop_with scan fuel s = (Raises e, s', t) ->
  exists msg t0 w,
    t = t0 ++ [Log ERROR (LoopError msg);
               Sleep (scheduler_check_interval (self s'))]
    /\ asyncio_sleep (scheduler_check_interval (self s')) w
       = (Raises e, world s').
Proof. apply loop_fails_in_the_handler. Qed.

(** X12. A cancellation that arrives during the sleep, or during the scan,
    ends the loop through [break]: the loop returns, and after a cancelled
    sleep the scan of that round has not been started. *)
Theorem cancellation_breaks_the_loop scan fuel s :
  (forall w1,
      asyncio_sleep (scheduler_check_interval (self s)) (world s)
      = (Raises CancelledError, w1) ->
      scheduler_loop_with scan (S fuel) s
      = (Returns Stopped, {| world := w1; self := self s |},
         [Sleep (scheduler_check_interval (self s))]))
  /\ (forall w1 s2 t2,
        asyncio_sleep (scheduler_check_interval (self s)) (world s)
        = (Returns tt, w1) ->
        scan {| world := w1; self := self s |}
        = (Raises CancelledError, s2, t2) ->
        scheduler_loop_with scan (S fuel) s
        = (Returns Stopped, s2,
           Sleep (scheduler_check_interval (self s)) :: t2)).
Proof.
  split.
  - intros w1 Hs. rewrite loop_step.
    unfold loop_round, sleep. munfold. simpl. rewrite Hs. reflexivity.
  - intros w1 s2 t2 Hs Hscan. rewrite loop_step.
    unfold loop_round, sleep. munfold. simpl. rewrite Hs. simpl.
    rewrite Hscan. simpl. rewrite ?app_nil_r. reflexivity.
Qed.


End ScanFacts.

(** ** The test command and the unloading hook *)

Section CommandFacts.

Context `{Host}.

#[local] Arguments execute_trigger : simpl never.

Ltac cunfold :=
  unfold mbind, C_mbind, mret, C_mret, C_bind, C_ret, C_try_except,
    C_try_with, C_emit, C_raise, C_read, C_write, C_await, lift, gets in *.

Lemma command_count_app p (t1 t2 : list command_event) :
  command_count p (t1 ++ t2) = command_count p t1 + command_count p t2.
Proof. unfold command_count. rewrite List.filter_app, length_app. reflexivity. Qed.

Lemma command_count_core_execute j (t : list event) :
  command_count (is_core_execute j) (Core <$> t) = count (is_execute j) t.
Proof.
  unfold command_count, count. induction t as [|ev t IH]; [reflexivity|].
  simpl. destruct ev; simpl; try exact IH.
  destruct (Nat.eqb i j); simpl; [f_equal|]; exact IH.
Qed.

Lemma command_count_core_failure (t : list event) :
  command_count is_test_failure (Core <$> t) = 0.
Proof.
  unfold command_count. induction t as [|ev t IH]; [reflexivity|exact IH].
Qed.

(** The loop of the test command over the positions [a .. a+n-1]. *)
Lemma test_range :
  never_cancelled ->
  forall n a k w p,
    exists w' t,
      test_each (seq a n) k {| world := w; self := p |}
      = (Returns (k + n), {| world := w'; self := p |}, t)
      /\ command_count is_test_failure t = 0
      /\ forall j,
          command_count (is_core_execute j) t
          = if Nat.leb a j && Nat.ltb j (a + n) then 1 else 0.
Proof.
  intros Hnc. induction n as [|n IH]; intros a k w p.
  - exists w, []. rewrite Nat.add_0_r. split; [reflexivity|].
    split; [reflexivity|]. intros j.
    destruct (Nat.leb_spec a j), (Nat.ltb_spec j (a + 0)); simpl;
      try reflexivity; lia.
  - destruct (execute_trigger_inv a {| world := w; self := p |})
      as (r1 & w1 & t1 & Hex & _ & Hcnt & _ & _ & Hret).
    simpl in Hex. rewrite (Hret Hnc) in Hex.
    destruct (IH (S a) (S k) w1 p) as (w2 & t2 & Hrest & Hfail & Hexec).
    exists w2, ((Core <$> (ExecuteTrigger a :: t1)) ++ t2).
    split; [|split].
    + simpl seq. cbn [test_each]. cunfold. rewrite Hex. simpl.
      rewrite Hrest. rewrite ?app_nil_r.
      replace (k + S n) with (S k + n) by lia. reflexivity.
    + rewrite command_count_app, command_count_core_failure, Hfail.
      reflexivity.
    + intros j.
      rewrite command_count_app, command_count_core_execute, count_cons,
        Hcnt, Hexec. simpl is_execute.
      destruct (Nat.eqb_spec a j), (Nat.leb_spec a j), (Nat.leb_spec (S a) j),
        (Nat.ltb_spec j (a + S n)), (Nat.ltb_spec j (S a + n)); simpl;
        try reflexivity; lia.
Qed.

(** X15. The test command executes nothing for a sender who is not the
    configured administrator: it yields the refusal and returns, the state
    being as it was. *)
Theorem test_is_refused_to_others sender_id w p :
  sender_id <> admin_user_id p ->
  test_trigger sender_id {| world := w; self := p |}
  = (Returns tt, {| world := w; self := p |}, [PlainResult AdminOnly]).
Proof.
  intros Hne. unfold test_trigger. cunfold. simpl.
  destruct (String.eqb_spec sender_id (admin_user_id p)); [contradiction|].
  reflexivity.
Qed.

(** X16. For the administrator the test command executes every trigger
    once, in a run that changes nothing in the plugin ([last_run] and
    [next_run] included), and the count of successes it reports is always
    the number of triggers, whatever the providers and the delivery did: the
    handler that would count a failure is never entered. *)
Theorem test_always_reports_full_success sender_id w p :
  never_cancelled ->
  sender_id = admin_user_id p ->
  exists w' t,
    test_trigger sender_id {| world := w; self := p |}
    = (Returns tt, {| world := w'; self := p |},
       PlainResult TestStarted
       :: t ++ [PlainResult (TestFinished (length (trigger_configs p))
                               (length (trigger_configs p)))])
    /\ command_count is_test_failure t = 0
    /\ forall j, j < length (trigger_configs p) ->
                 command_count (is_core_execute j) t = 1.
Proof.
  intros Hnc ->.
  destruct (test_range Hnc (length (trigger_configs p)) 0 0 w p)
    as (w' & t & Hrun & Hfail & Hexec).
  exists w', t. split; [|split; [exact Hfail|]].
  - unfold test_trigger. cunfold. simpl. rewrite String.eqb_refl. simpl.
    rewrite Hrun. reflexivity.
  - intros j Hj. rewrite Hexec.
    destruct (Nat.leb_spec 0 j), (Nat.ltb_spec j (0 + length (trigger_configs p)));
      simpl; try reflexivity; lia.
Qed.

Context `{!TaskApi}.

(** X17. [terminate] never raises and leaves the plugin as it was.  With no
    task, or a task that is done, it only logs the unloading.  Otherwise it
    cancels the task and awaits it: if the task ends normally or with
    [CancelledError] the unloading is logged, and if it ends with an
    exception that exception is logged instead. *)
Theorem terminate_never_raises has_task w p :
  exists w' t,
    terminate has_task {| world := w; self := p |}
    = (Returns tt, {| world := w'; self := p |}, t)
    /\ (has_task = false \/ task_done w = true ->
        w' = w /\ t = [UnloadedLog])
    /\ (has_task = true -> task_done w = false ->
        w' = (task_wait (task_cancel w)).2
        /\ t = [TaskCancel; TaskWait;
                match (task_wait (task_cancel w)).1 with
                | Raises (Exception e) => TerminateFailedLog e
                | _ => UnloadedLog
                end]).
Proof.
  unfold terminate. cunfold. simpl.
  destruct has_task; simpl.
  2:{ do 2 eexists. split; [reflexivity|]. split; [auto|discriminate]. }
  destruct (task_done w) eqn:Hdone; simpl.
  { do 2 eexists. split; [reflexivity|]. split; [auto|discriminate]. }
  destruct (task_wait (task_cancel w)) as [[[]|[|e]] w1]; simpl;
    do 2 eexists; (split; [reflexivity|]);
    (split; [intros [|]; discriminate|auto]).
Qed.

End CommandFacts.

(** ** These properties at work on the example hosts *)

Lemma invalid_cron_is_skipped_witness :
  parse_config group "qq::g2::provA::99 * * * *::x"
    (Demo.state_at Demo.t_start (Demo.plugin [] [] true false))
  = (Returns tt, Demo.state_at Demo.t_start (Demo.plugin [] [] true false),
     [Log ERROR (InvalidCron group "99 * * * *" "bad cron expression")]).
Proof.
  apply (@invalid_cron_is_skipped Demo.host group
           "qq::g2::provA::99 * * * *::x" Demo.t_start
           (Demo.plugin [] [] true false) Demo.t_start Demo.t_start
           "bad cron expression").
  - vm_compute. lia.
  - reflexivity.
  - left. reflexivity.
Defined.

Lemma format_round_trip_witness :
  parse_config private
    ("p1" +:+ "::" +:+ "u1" +:+ "::" +:+ "provA" +:+ "::" +:+ "*/5 * * * *"
     +:+ "::" +:+ "")
    (Demo.state_at Demo.t_start (Demo.plugin [] [] true false))
  = (Returns tt,
     Demo.state_at Demo.t_start
       (with_trigger_configs
          [{| type := private; platform := "p1"; target_id := "u1";
              provider := "provA"; cron_expression := "*/5 * * * *";
              cron := (Demo.every5, Demo.t_start);
              next_run := 1704067500%Z; last_run := None; message := "" |}]
          (Demo.plugin [] [] true false)),
     [Log INFO (TriggerAdded private "p1" "u1" "*/5 * * * *" 1704067500)]).
Proof.
  exact (@format_round_trip Demo.host private Demo.t_start
           (Demo.plugin [] [] true false) "p1" "u1" "provA" "*/5 * * * *" ""
           Demo.t_start Demo.t_start (Demo.every5, Demo.t_start)
           1704067500%Z (Demo.every5, 1704067500%Z)
           Demo.t_start Demo.t_start (Demo.every5, Demo.t_start)
           eq_refl eq_refl eq_refl eq_refl
           eq_refl eq_refl eq_refl eq_refl eq_refl).
Defined.

Lemma croniter_failure_keeps_trigger_due_witness :
  exists w' c' t,
    check_trigger Demo.t_scan 0
      (Demo.with_entries [Lab.bad_entry] (Demo.plugin [] [] true false))
    = (Returns tt,
       set_config 0 c'
         (Demo.state_at w'
            (with_trigger_configs [Lab.bad_entry]
               (Demo.plugin [] [] true false))), t)
    /\ last_run c' = Some Demo.t_scan
    /\ next_run c' = next_run Lab.bad_entry
    /\ count (is_execute 0) t = 1
    /\ In (Log ERROR (TaskFailed "bad cron expression")) t
    /\ count is_failure_notification t
       = (if notification_on_failure
               (with_trigger_configs [Lab.bad_entry]
                  (Demo.plugin [] [] true false))
          then 1 else 0)
    /\ (notification_on_failure
          (with_trigger_configs [Lab.bad_entry]
             (Demo.plugin [] [] true false)) = true ->
        In (SendNotification (failure_message "bad cron expression") "error")
          t).
Proof.
  apply (@croniter_failure_keeps_trigger_due Demo.host Demo.t_scan 0
           Demo.t_scan
           (with_trigger_configs [Lab.bad_entry]
              (Demo.plugin [] [] true false))
           Lab.bad_entry "bad cron expression").
  - exact demo_never_cancelled.
  - reflexivity.
  - vm_compute. discriminate.
  - left. reflexivity.
Defined.

Lemma idle_scan_witness :
  check_and_execute_triggers
    (Demo.state_at Demo.t_start
       (with_trigger_configs [Demo.entry group "g1" "provA"]
          (Demo.plugin [] [] true false)))
  = (Returns tt,
     Demo.state_at Demo.t_start
       (with_trigger_configs [Demo.entry group "g1" "provA"]
          (Demo.plugin [] [] true false)), []).
Proof.
  apply (@idle_scan Demo.host Demo.t_start
           (with_trigger_configs [Demo.entry group "g1" "provA"]
              (Demo.plugin [] [] true false)) Demo.t_start Demo.t_start).
  - reflexivity.
  - intros [|j] c Hc; [|discriminate Hc].
    injection Hc as <-. reflexivity.
Defined.

Lemma waiting_trigger_is_left_alone_witness :
  exists s' t,
    check_and_execute_triggers
      (Demo.with_entries [Demo.entry group "g1" "provA"; Lab.waiting_entry]
         (Demo.plugin [] [] true false))
    = (Returns tt, s', t)
    /\ trigger_configs (self s') !! 1 = Some Lab.waiting_entry
    /\ count (is_execute 1) t = 0.
Proof.
  apply (@waiting_trigger_is_left_alone Demo.host Demo.t_scan
           (with_trigger_configs
              [Demo.entry group "g1" "provA"; Lab.waiting_entry]
              (Demo.plugin [] [] true false))
           Demo.t_scan Demo.t_scan 1 Lab.waiting_entry).
  - exact demo_never_cancelled.
  - reflexivity.
  - reflexivity.
  - reflexivity.
Defined.

Lemma nothing_is_due_after_a_scan_witness :
  exists w' p' t,
    check_and_execute_triggers
      (Demo.with_entries [Demo.entry group "g1" "provA"; Lab.waiting_entry]
         (Demo.plugin [] [] true false))
    = (Returns tt, Demo.state_at w' p', t)
    /\ (forall j c', trigger_configs p' !! j = Some c' ->
                     (Demo.t_scan < next_run c')%Z)
    /\ forall w'',
        (w', w') = (Demo.t_scan, w'') ->
        check_and_execute_triggers (Demo.state_at w' p')
        = (Returns tt, Demo.state_at w'' p', []).
Proof.
  apply (@nothing_is_due_after_a_scan Demo.host Demo.t_scan
           (with_trigger_configs
              [Demo.entry group "g1" "provA"; Lab.waiting_entry]
              (Demo.plugin [] [] true false))
           Demo.t_scan Demo.t_scan).
  - exact demo_never_cancelled.
  - exact demo_croniter_after.
  - reflexivity.
  - intros [|[|j]] c Hc Hdue; try discriminate Hc; injection Hc as <-.
    + exists (Demo.every5, Demo.t_scan), 1704067800%Z,
        (Demo.every5, 1704067800%Z).
      split; [reflexivity|vm_compute; reflexivity].
    + exfalso. revert Hdue. vm_compute. intros Hdue. apply Hdue. reflexivity.
Defined.

Lemma executor_swallows_errors_witness :
  execute_trigger 0
    (Lab.state Lab.broken_lookup Demo.chat Lab.ok_send)
  = (Returns tt, Lab.state Lab.broken_lookup Demo.chat Lab.ok_send,
     [ExecuteTrigger 0; GetProviderById "provA";
      Log ERROR (TriggerFailed "registry down")])
  /\ execute_trigger 0
       (Demo.with_entries [Demo.entry group "g1" "down"]
          (Demo.plugin [] [] true false))
     = (Returns tt,
        Demo.with_entries [Demo.entry group "g1" "down"]
          (Demo.plugin [] [] true false),
        [ExecuteTrigger 0; GetProviderById "down";
         TextChat "down" "hello" [] default_system_prompt;
         Log ERROR (TriggerFailed "provider down")])
  /\ execute_trigger 0
       (Lab.state Demo.lookup_provider Demo.chat Lab.broken_send)
     = (Returns tt, Lab.state Demo.lookup_provider Demo.chat Lab.broken_send,
        [ExecuteTrigger 0; GetProviderById "provA";
         @TextChat (Lab.host Demo.lookup_provider Demo.chat Lab.broken_send)
           "provA" "hello" [] default_system_prompt;
         @SendMessage (Lab.host Demo.lookup_provider Demo.chat Lab.broken_send)
           "qq:group_message:g1" ["hello"];
         Log ERROR (TriggerFailed "send failed")]).
Proof.
  split; [|split].
  - exact (proj1 (@executor_swallows_errors
                    (Lab.host Lab.broken_lookup Demo.chat Lab.ok_send)
                    0 Demo.t_scan
                    (Lab.plugin Lab.broken_lookup Demo.chat Lab.ok_send)
                    (Lab.entry Lab.broken_lookup Demo.chat Lab.ok_send)
                    eq_refl)
             "registry down" Demo.t_scan eq_refl).
  - exact (proj1 (proj2 (@executor_swallows_errors Demo.host 0 Demo.t_scan
                           (with_trigger_configs [Demo.entry group "g1" "down"]
                              (Demo.plugin [] [] true false))
                           (Demo.entry group "g1" "down") eq_refl))
             "down" Demo.t_scan "provider down" Demo.t_scan eq_refl eq_refl).
  - exact (proj2 (proj2 (@executor_swallows_errors
                           (Lab.host Demo.lookup_provider Demo.chat
                              Lab.broken_send)
                           0 Demo.t_scan
                           (Lab.plugin Demo.lookup_provider Demo.chat
                              Lab.broken_send)
                           (Lab.entry Demo.lookup_provider Demo.chat
                              Lab.broken_send)
                           eq_refl))
             "provA" Demo.t_scan ["hello"] Demo.t_scan "send failed"
             Demo.t_scan eq_refl eq_refl eq_refl eq_refl).
Defined.

Lemma executor_delivers_what_the_provider_returned_witness :
  exists prov w1 w2,
    Demo.lookup_provider "provA" Demo.t_scan = (inr (Some prov), w1)
    /\ Demo.chat prov "hello" [] default_system_prompt w1
       = (Returns (Some (Some ["hello"])), w2)
    /\ negb (Nat.eqb (length ["hello"]) 0) = true.
Proof.
  apply (proj2 (proj2
           (@executor_delivers_what_the_provider_returned Demo.host 0
              Demo.t_scan
              (with_trigger_configs [Demo.entry private "u1" "provA"]
                 (Demo.plugin [] [] true true))
              (Demo.entry private "u1" "provA") _ _ _ eq_refl eq_refl))
           "qq:private_message:u1" ["hello"]).
  right. right. right. left. reflexivity.
Defined.

Lemma cancelled_execution_leaves_trigger_due_witness :
  for_each [0] (check_trigger Demo.t_scan)
    (Lab.state Demo.lookup_provider Lab.cancelled_chat Lab.ok_send)
  = (Raises CancelledError,
     Lab.state Demo.lookup_provider Lab.cancelled_chat Lab.ok_send,
     [Log INFO (Executing "qq" "g1" "*/5 * * * *");
      ExecuteTrigger 0; GetProviderById "provA";
      @TextChat (Lab.host Demo.lookup_provider Lab.cancelled_chat Lab.ok_send)
        "provA" "hello" [] default_system_prompt]).
Proof.
  apply (@cancelled_execution_leaves_trigger_due
           (Lab.host Demo.lookup_provider Lab.cancelled_chat Lab.ok_send)
           Demo.t_scan 0 Demo.t_scan
           (Lab.plugin Demo.lookup_provider Lab.cancelled_chat Lab.ok_send)
           (Lab.entry Demo.lookup_provider Lab.cancelled_chat Lab.ok_send)
           "provA" Demo.t_scan Demo.t_scan [] eq_refl).
  - vm_compute. discriminate.
  - reflexivity.
  - reflexivity.
Defined.


Lemma loop_fails_only_in_the_handler_witness :
  exists msg t0 w,
    [@Sleep (Demo.cancelling_host 1704067560) 30;
     @Log (Demo.cancelling_host 1704067560) ERROR (LoopError "boom");
     @Sleep (Demo.cancelling_host 1704067560) 30]
    = t0 ++ [@Log (Demo.cancelling_host 1704067560) ERROR (LoopError msg);
             @Sleep (Demo.cancelling_host 1704067560) 30]
    /\ @asyncio_sleep (Demo.cancelling_host 1704067560) 30 w
       = (Raises CancelledError, 1704067560%Z).
Proof.
  exact (@loop_fails_only_in_the_handler
           (Demo.cancelling_host 1704067560) (raise (Exception "boom")) 4
           (Demo.cancelling_state 1704067560) CancelledError
           (@Build_State (Demo.cancelling_host 1704067560) 1704067560%Z
              (@self _ (Demo.cancelling_state 1704067560)))
           [@Sleep (Demo.cancelling_host 1704067560) 30;
            @Log (Demo.cancelling_host 1704067560) ERROR (LoopError "boom");
            @Sleep (Demo.cancelling_host 1704067560) 30]
           eq_refl).
Defined.

Lemma cancellation_breaks_the_loop_witness :
  @scheduler_loop_with (Demo.cancelling_host 1704067530)
    (raise (Exception "unused")) 4 (Demo.cancelling_state 1704067530)
  = (Returns Stopped, Demo.cancelling_state 1704067530, [Sleep 30])
  /\ scheduler_loop_with (raise CancelledError) 4
       (Demo.state_at Demo.t_scan (Demo.plugin [] [] true false))
     = (Returns Stopped,
        Demo.state_at (Demo.t_scan + 30) (Demo.plugin [] [] true false),
        [Sleep 30]).
Proof.
  split.
  - exact (proj1 (@cancellation_breaks_the_loop
                    (Demo.cancelling_host 1704067530)
                    (raise (Exception "unused")) 3
                    (Demo.cancelling_state 1704067530))
             Demo.t_scan eq_refl).
  - exact (proj2 (@cancellation_breaks_the_loop Demo.host
                    (raise CancelledError) 3
                    (Demo.state_at Demo.t_scan (Demo.plugin [] [] true false)))
             (Demo.t_scan + 30)%Z
             (Demo.state_at (Demo.t_scan + 30) (Demo.plugin [] [] true false))
             [] eq_refl eq_refl).
Defined.


Lemma test_is_refused_to_others_witness :
  test_trigger "mallory"
    (Demo.with_entries [Demo.entry group "g1" "provA"]
       (Demo.plugin [] [] true false))
  = (Returns tt,
     Demo.with_entries [Demo.entry group "g1" "provA"]
       (Demo.plugin [] [] true false),
     [PlainResult AdminOnly]).
Proof.
  apply (@test_is_refused_to_others Demo.host "mallory" Demo.t_scan
           (with_trigger_configs [Demo.entry group "g1" "provA"]
              (Demo.plugin [] [] true false))).
  discriminate.
Defined.

Lemma test_always_reports_full_success_witness :
  exists w' t,
    test_trigger "admin"
      (Demo.with_entries
         [Demo.entry group "g1" "down"; Demo.entry private "u1" "provA"]
         (Demo.plugin [] [] true false))
    = (Returns tt,
       Demo.state_at w'
         (with_trigger_configs
            [Demo.entry group "g1" "down"; Demo.entry private "u1" "provA"]
            (Demo.plugin [] [] true false)),
       PlainResult TestStarted :: t ++ [PlainResult (TestFinished 2 2)])
    /\ command_count is_test_failure t = 0
    /\ forall j, j < 2 -> command_count (is_core_execute j) t = 1.
Proof.
  apply (@test_always_reports_full_success Demo.host "admin" Demo.t_scan
           (with_trigger_configs
              [Demo.entry group "g1" "down"; Demo.entry private "u1" "provA"]
              (Demo.plugin [] [] true false))).
  - exact demo_never_cancelled.
  - reflexivity.
Defined.

Lemma terminate_never_raises_witness :
  exists w' t,
    @terminate Demo.host Lab.running_task true
      (Demo.state_at Demo.t_scan (Demo.plugin [] [] true false))
    = (Returns tt, Demo.state_at w' (Demo.plugin [] [] true false), t)
    /\ (true = true -> false = false ->
        w' = Demo.t_scan /\ t = [TaskCancel; TaskWait; UnloadedLog]).
Proof.
  destruct (@terminate_never_raises Demo.host Lab.running_task true
              Demo.t_scan (Demo.plugin [] [] true false))
    as (w' & t & Hrun & _ & Hcancel).
  exists w', t. split; [exact Hrun|]. exact Hcancel.
Defined.
